(** * Procrastinator Partner: the countdown hook and the click classifier

    A shallow embedding of [src/hooks/useTimer.ts] (the [useTimer] hook with
    its [formatTime] helper) and of [handleClick] in
    [src/components/Timer/TimerDisplay.tsx].

    Conventions of the embedding.
    - Millisecond counts and clock readings are [Z]: [Date.now()] returns an
      integer number of milliseconds, and every quantity of the hook is
      obtained from such readings and from durations by [+], [-] and
      [Math.max].
    - React state and refs of one hook instance are the fields of one record;
      every handler is a function from the record to the record.  A handler
      runs to completion and the component re-renders before the next event
      is delivered.
    - [start], [pause] and [toggle] are [useCallback] closures over the
      [state] of the render that created them, and [window.setInterval]
      hands out a new handle at every call.  Module [Renders] gives every
      call the state of the render its function comes from and keeps every
      handle that has not been cleared; module [Page] mounts the click
      classifier on it, with the [onToggle] each timeout has closed over.
      Module [Timer] is the hook as it is for a caller who only calls the
      functions of the current render: there the closed-over state is the
      state of the hook and the only live handle is the one in
      [intervalRef].  [RendersFacts.lift_run] relates the two.
    - [Date.now()] is an argument of the handlers that read it; timeouts and
      [Date.now()] are read off one clock.
    - The callbacks [onComplete], [onToggle] and [onReset] are observed
      through a counter, respectively a log of invocations. *)

From Stdlib Require Import ZArith List String Ascii Bool Lia QArith.
From Stdlib Require Import DecimalString DecimalZ DecimalPos DecimalFacts.
Import ListNotations.

Local Open Scope Z_scope.

(** ** Constants of [src/types/timer.ts] *)

(** [MIN_DURATION_MS] of the timer types: the minimum timer duration is one
    second, which is also the floor the spec gives for [setDuration]. *)
Definition MIN_DURATION_MS : Z := 1000.

(** [DEFAULT_DURATION_MS] of the timer types: 25 minutes in milliseconds. *)
Definition DEFAULT_DURATION_MS : Z := 25 * 60 * 1000.

(** ** [formatTime] *)

Module Format.

Local Open Scope string_scope.

(** [Number.prototype.toString] on an integer: the decimal numeral, with a
    leading minus sign for a negative number. *)
Definition toString (n : Z) : string := NilZero.string_of_int (Z.to_int n).

(** The first [n] characters of [pad] repeated for ever; [rest] is what is
    left of the current copy of [pad]. *)
Fixpoint filler (n : nat) (pad rest : string) : string :=
  match n with
  | O => ""
  | S k =>
      match rest with
      | String c r => String c (filler k pad r)
      | EmptyString =>
          match pad with
          | String c r => String c (filler k pad r)
          | EmptyString => ""
          end
      end
  end.

(** [String.prototype.padStart(targetLength, padString)]. *)
Definition padStart (targetLength : nat) (padString s : string) : string :=
  if (targetLength <=? String.length s)%nat then s
  else filler (targetLength - String.length s) padString padString ++ s.

Record FormattedTime := mkFormattedTime {
  hours : Z;
  minutes : Z;
  seconds : Z;
  milliseconds : Z;
  display : string
}.

(** [Math.floor (a / b)] is [a / b] on [Z]; JavaScript's [%] truncates
    towards zero, which is [Z.rem]. *)
Definition formatTime (ms : Z) : FormattedTime :=
  let safeMs := Z.max 0 ms in
  let hours := safeMs / (1000 * 60 * 60) in
  let minutes := Z.rem safeMs (1000 * 60 * 60) / (1000 * 60) in
  let seconds := Z.rem safeMs (1000 * 60) / 1000 in
  let milliseconds := Z.rem safeMs 1000 in
  let display :=
    if (0 <? hours)%Z
    then toString hours ++ ":" ++ padStart 2 "0" (toString minutes)
           ++ ":" ++ padStart 2 "0" (toString seconds)
    else padStart 2 "0" (toString minutes)
           ++ ":" ++ padStart 2 "0" (toString seconds) in
  mkFormattedTime hours minutes seconds milliseconds display.

Definition formatMilliseconds (ms : Z) : string :=
  "." ++ padStart 3 "0" (toString ms).

(** Reading a decimal numeral back. *)
Definition parse (s : string) : option Z :=
  option_map Z.of_int (NilZero.int_of_string s).

(** The character of a decimal digit. *)
Definition digit (d : Z) : ascii := ascii_of_nat (48 + Z.to_nat d).

(** The two-digit field of a number below one hundred. *)
Definition twoDigits (n : Z) : string :=
  String (digit (n / 10)) (String (digit (n mod 10)) "").

(** The three-digit field of a number below one thousand. *)
Definition threeDigits (n : Z) : string :=
  String (digit (n / 100))
    (String (digit ((n / 10) mod 10)) (String (digit (n mod 10)) "")).

End Format.

(** ** The navigation types *)

Module Nav.

Import Format.
Local Open Scope string_scope.

(** The cap of the navigation types: 1000 hours in milliseconds. *)
Definition MAX_DURATION_MS : Z := 1000 * 60 * 60 * 1000.

(** [formatCustomPresetDisplay]. *)
Definition formatCustomPresetDisplay (ms : Z) : string :=
  let totalMinutes := (ms / (1000 * 60))%Z in
  let hours := (totalMinutes / 60)%Z in
  let minutes := Z.rem totalMinutes 60 in
  if (1000 <=? hours)%Z then "wow.."
  else if (0 <? hours)%Z
  then toString hours ++ ":" ++ padStart 2 "0" (toString minutes)
  else toString minutes ++ "m".

End Nav.

(** ** The [useTimer] hook, called through the current render

    In this module [start], [pause] and [toggle] are the functions of the
    render that is current when they are called, so that the [state] they
    read is the state of the hook; the interval callback runs for the
    handle in [intervalRef], and the function it gives to [setState] runs
    once.  Calls kept across renders, handles that [intervalRef] has lost
    and replayed updates are the matter of [Renders] below. *)

Module Timer.

Inductive TimerStatus := idle | running | paused | completed.

Definition status_eqb (a b : TimerStatus) : bool :=
  match a, b with
  | idle, idle | running, running | paused, paused | completed, completed => true
  | _, _ => false
  end.

(** [TimerState] of [src/types/timer.ts], as [useState] is given it. *)
Record TimerState := mkTimerState {
  remainingMs : Z;
  status : TimerStatus;
  initialMs : Z
}.

(** One instance of the hook: the React state, the three refs, and two
    observers: [intervals] counts the handles [window.setInterval] has
    returned, [completions] the calls of [onComplete]. *)
Record Hook := mkHook {
  state : TimerState;
  intervalRef : option nat;
  startTimeRef : Z;
  remainingAtStartRef : Z;
  intervals : nat;
  completions : nat
}.

Definition setState (f : TimerState -> TimerState) (h : Hook) : Hook :=
  mkHook (f (state h)) (intervalRef h) (startTimeRef h)
         (remainingAtStartRef h) (intervals h) (completions h).

Definition armed (h : Hook) : bool :=
  match intervalRef h with Some _ => true | None => false end.

(** [useTimer(options)]: the first render. *)
Definition useTimer (initialDuration : option Z) : Hook :=
  let initialDuration :=
    match initialDuration with
    | Some d => d
    | None => DEFAULT_DURATION_MS
    end in
  mkHook (mkTimerState initialDuration idle initialDuration) None 0 0 0%nat 0%nat.

Definition stopInterval (h : Hook) : Hook :=
  match intervalRef h with
  | Some _ =>
      mkHook (state h) None (startTimeRef h) (remainingAtStartRef h)
             (intervals h) (completions h)
  | None => h
  end.

Definition onComplete (h : Hook) : Hook :=
  mkHook (state h) (intervalRef h) (startTimeRef h) (remainingAtStartRef h)
         (intervals h) (S (completions h)).

(** The callback given to [window.setInterval]; [now] is [Date.now()]. *)
Definition intervalCallback (now : Z) (h : Hook) : Hook :=
  let elapsed := now - startTimeRef h in
  let newRemaining := Z.max 0 (remainingAtStartRef h - elapsed) in
  if newRemaining <=? 0
  then
    setState (fun prev => mkTimerState 0 completed (initialMs prev))
             (onComplete (stopInterval h))
  else
    setState (fun prev => mkTimerState newRemaining (status prev) (initialMs prev)) h.

(** [start]; [now] is [Date.now()]. *)
Definition start (now : Z) (h : Hook) : Hook :=
  if status_eqb (status (state h)) running then h
  else if remainingMs (state h) <=? 0 then h
  else
    let h1 :=
      mkHook (state h) (intervalRef h) now (remainingMs (state h))
             (intervals h) (completions h) in
    let h2 :=
      setState (fun prev => mkTimerState (remainingMs prev) running (initialMs prev)) h1 in
    mkHook (state h2) (Some (intervals h2)) (startTimeRef h2)
           (remainingAtStartRef h2) (S (intervals h2)) (completions h2).

Definition pause (h : Hook) : Hook :=
  if negb (status_eqb (status (state h)) running) then h
  else
    setState (fun prev => mkTimerState (remainingMs prev) paused (initialMs prev))
             (stopInterval h).

Definition reset (h : Hook) : Hook :=
  setState (fun prev => mkTimerState (initialMs prev) idle (initialMs prev))
           (stopInterval h).

Definition toggle (now : Z) (h : Hook) : Hook :=
  match status (state h) with
  | running => pause h
  | idle | paused => start now h
  | completed => reset h
  end.

Definition setDuration (ms : Z) (h : Hook) : Hook :=
  let safeDuration := Z.max MIN_DURATION_MS ms in
  setState (fun _ => mkTimerState safeDuration idle safeDuration)
           (stopInterval h).

(** The derived [progress]; the division of the source is the division of
    rationals. *)
Definition progress (h : Hook) : Q :=
  if 0 <? initialMs (state h)
  then (inject_Z (initialMs (state h) - remainingMs (state h))
          / inject_Z (initialMs (state h)))%Q
  else 0%Q.


(** *** Events

    The hook is driven by the five functions it returns and by the browser
    running the interval callback, which it does only while the interval is
    set.  Every event happens at a clock reading, the value [Date.now()]
    has during it.  The properties of whole histories are stated for the
    [chronological] ones, in which the clock never runs backwards. *)

Inductive Op :=
| OpStart
| OpPause
| OpToggle
| OpReset
| OpSetDuration (ms : Z)
| OpTick.

Definition Event : Type := Z * Op.

Definition tick (now : Z) (h : Hook) : Hook :=
  if armed h then intervalCallback now h else h.

Definition step (e : Event) (h : Hook) : Hook :=
  let (now, op) := e in
  match op with
  | OpStart => start now h
  | OpPause => pause h
  | OpToggle => toggle now h
  | OpReset => reset h
  | OpSetDuration ms => setDuration ms h
  | OpTick => tick now h
  end.

Definition run (tr : list Event) (h : Hook) : Hook :=
  fold_left (fun h e => step e h) tr h.

(** The readings of the clock along [tr] never decrease, starting from
    the reading [t0]. *)
Fixpoint chronological (t0 : Z) (tr : list Event) : bool :=
  match tr with
  | [] => true
  | (now, _) :: tr' => (t0 <=? now) && chronological now tr'
  end.

(** The last clock reading of [tr], [t0] when there is none. *)
Definition lastTime (t0 : Z) (tr : list Event) : Z :=
  fold_left (fun _ e => fst e) tr t0.

(** The invariant the data model states for a [TimerState]. *)
Definition Invariant (s : TimerState) : Prop :=
  0 <= remainingMs s /\
  0 < initialMs s /\
  remainingMs s <= initialMs s /\
  (status s = completed -> remainingMs s = 0).

(** What holds of the hook whatever duration it was created with; [t] is the
    current clock reading. *)
Definition Consistent (t : Z) (h : Hook) : Prop :=
  remainingMs (state h) <= initialMs (state h) /\
  (0 < initialMs (state h) -> 0 <= remainingMs (state h)) /\
  (status (state h) = completed -> remainingMs (state h) = 0) /\
  (status (state h) = running <-> armed h = true) /\
  (armed h = true ->
     0 < remainingAtStartRef h <= initialMs (state h) /\
     startTimeRef h <= t /\
     Z.max 0 (remainingAtStartRef h - (t - startTimeRef h))
       <= remainingMs (state h)) /\
  (completions h + (if armed h then 1 else 0) <= intervals h)%nat.


(** The edges of the status machine: the four moves of a countdown, the
    return to [idle], and staying put. *)
Definition transition (a b : TimerStatus) : bool :=
  match a, b with
  | idle, running | paused, running => true
  | running, paused | running, completed => true
  | _, idle => true
  | _, _ => status_eqb a b
  end.


End Timer.

(** ** The click classifier of [TimerDisplay] *)

Module Clicks.

Definition TRIPLE_CLICK_WINDOW : Z := 500.

(** The two callbacks the component is given. *)
Inductive Action := OnToggle | OnReset.

Definition action_eqb (a b : Action) : bool :=
  match a, b with
  | OnToggle, OnToggle | OnReset, OnReset => true
  | _, _ => false
  end.

(** The ref [clickTimestamps], the callbacks handed to [setTimeout] that have
    not run yet (each with the time it is due), and the calls of [onToggle]
    and [onReset] made so far, each with the time of the call. *)
Record Surface := mkSurface {
  clickTimestamps : list Z;
  timeouts : list Z;
  calls : list (Z * Action)
}.

Definition mount : Surface := mkSurface [] [] [].

(** [handleClick]; [now] is [Date.now()]. *)
Definition handleClick (now : Z) (s : Surface) : Surface :=
  let pushed := clickTimestamps s ++ [now] in
  let kept :=
    filter (fun timestamp => now - timestamp <? TRIPLE_CLICK_WINDOW) pushed in
  if (3 <=? List.length kept)%nat
  then mkSurface [] (timeouts s) (calls s ++ [(now, OnReset)])
  else mkSurface kept (timeouts s ++ [now + TRIPLE_CLICK_WINDOW]) (calls s).

(** The callback [handleClick] hands to [setTimeout], run at time [now]. *)
Definition deferredCheck (now : Z) (s : Surface) : Surface :=
  if ((0 <? List.length (clickTimestamps s)) && (List.length (clickTimestamps s) <? 3))%nat
  then mkSurface [] (timeouts s) (calls s ++ [(now, OnToggle)])
  else s.

(** What the browser delivers: a click, or the run of the pending timeout
    at position [k]. *)
Inductive Input :=
| Click
| Expire (k : nat).

Definition Event : Type := Z * Input.

Fixpoint removeAt {A} (k : nat) (l : list A) : list A :=
  match l, k with
  | [], _ => []
  | _ :: l', O => l'
  | x :: l', S k' => x :: removeAt k' l'
  end.

(** One event at time [now]; a timeout runs only once it is due. *)
Definition step (now : Z) (i : Input) (s : Surface) : option Surface :=
  match i with
  | Click => Some (handleClick now s)
  | Expire k =>
      match nth_error (timeouts s) k with
      | Some due =>
          if due <=? now
          then Some (deferredCheck now
                       (mkSurface (clickTimestamps s)
                                  (removeAt k (timeouts s)) (calls s)))
          else None
      | None => None
      end
  end.

(** A run of the event loop from clock reading [t0]: the readings never
    decrease.  [None] when the list is not a possible history. *)
Fixpoint run (t0 : Z) (tr : list Event) (s : Surface) : option Surface :=
  match tr with
  | [] => Some s
  | (now, i) :: tr' =>
      if t0 <=? now
      then match step now i s with
           | Some s' => run now tr' s'
           | None => None
           end
      else None
  end.

(** The times of the clicks of a history, in order. *)
Fixpoint clicks (tr : list Event) : list Z :=
  match tr with
  | [] => []
  | (now, Click) :: tr' => now :: clicks tr'
  | (_, Expire _) :: tr' => clicks tr'
  end.

Definition count (a : Action) (l : list (Z * Action)) : nat :=
  List.length (filter (fun c => action_eqb (snd c) a) l).

(** [handleClick] at each of the times [cs] in turn. *)
Definition clickAll (cs : list Z) (s : Surface) : Surface :=
  fold_left (fun s now => handleClick now s) cs s.

(** The last clock reading of a history, [t0] when it is empty. *)
Definition lastTime (t0 : Z) (tr : list Event) : Z :=
  fold_left (fun _ e => fst e) tr t0.

(** Histories used as examples: two, three, four and six clicks within one
    window, each followed by the timeouts the clicks leave. *)
Definition twoClicks : list Event :=
  [(0, Click); (100, Click); (500, Expire 0); (600, Expire 0)].

Definition threeClicks : list Event :=
  [(0, Click); (100, Click); (200, Click); (500, Expire 0); (600, Expire 0)].

Definition fourClicks : list Event :=
  [(0, Click); (100, Click); (200, Click); (300, Click);
   (500, Expire 0); (600, Expire 0); (800, Expire 0)].

Definition sixClicks : list Event :=
  [(0, Click); (100, Click); (200, Click); (300, Click); (350, Click);
   (400, Click);
   (500, Expire 0); (600, Expire 0); (800, Expire 0); (850, Expire 0)].

(** All the clicks of a burst lie within one detection window. *)
Definition burst (cs : list Z) : Prop :=
  forall a b, In a cs -> In b cs -> b - a < TRIPLE_CLICK_WINDOW.

(** The clicks of a window that ends at time [t]. *)
Definition inWindow (t : Z) (cs : list Z) : list Z :=
  filter (fun c => t - c <? TRIPLE_CLICK_WINDOW) cs.

(** The counts of a state after [n] clicks. *)
Definition Counted (n : nat) (s : Surface) : Prop :=
  (List.length (clickTimestamps s) < 3)%nat /\
  (3 * count OnReset (calls s) + count OnToggle (calls s)
     + List.length (clickTimestamps s) <= n)%nat.

(** What the state of the classifier owes to the clicks [P] made so far. *)
Definition Sound (P : list Z) (s : Surface) : Prop :=
  (forall f, (List.length (filter f (clickTimestamps s))
              <= List.length (filter f P))%nat) /\
  (forall d, In d (timeouts s) ->
             exists c, In c P /\ d = c + TRIPLE_CLICK_WINDOW) /\
  (forall t, In (t, OnToggle) (calls s) ->
             exists c, In c P /\ c + TRIPLE_CLICK_WINDOW <= t) /\
  (forall t, In (t, OnReset) (calls s) ->
             exists pre post,
               P = pre ++ t :: post /\
               (2 <= List.length (inWindow t pre))%nat).

End Clicks.

(** ** The wiring of [App] *)

Module App.

Import Timer Clicks.

(** The timer display mounted on one hook. *)
Record World := mkWorld {
  surface : Surface;
  hook : Hook
}.

(** What the browser delivers to the page. *)
Inductive Input :=
| Click
| Expire (k : nat)
| Tick.

Definition Event : Type := Z * Input.

Section Wiring.

(** [App] passes [timer.toggle] as [onToggle].  The function changes with
    every render, and a timeout calls the one its click closed over; its
    effect on the hook is left open here. *)
Variable onToggle : Z -> Hook -> Hook.

(** [App] passes [timer.reset] as [onReset]; that function is the same in
    every render and reads nothing but the refs and the previous state. *)
Definition invoke (now : Z) (h : Hook) (c : Z * Action) : Hook :=
  match snd c with
  | OnReset => reset h
  | OnToggle => onToggle now h
  end.

(** The callbacks an event has called are the entries it has added to the
    log. *)
Definition deliver (now : Z) (before after : Surface) (h : Hook) : Hook :=
  fold_left (invoke now) (skipn (List.length (calls before)) (calls after)) h.

Definition step (now : Z) (i : Input) (w : World) : option World :=
  match i with
  | Click =>
      let s' := handleClick now (surface w) in
      Some (mkWorld s' (deliver now (surface w) s' (hook w)))
  | Expire k =>
      match Clicks.step now (Clicks.Expire k) (surface w) with
      | Some s' => Some (mkWorld s' (deliver now (surface w) s' (hook w)))
      | None => None
      end
  | Tick => Some (mkWorld (surface w) (tick now (hook w)))
  end.

Fixpoint run (t0 : Z) (tr : list Event) (w : World) : option World :=
  match tr with
  | [] => Some w
  | (now, i) :: tr' =>
      if t0 <=? now
      then match step now i w with
           | Some w' => run now tr' w'
           | None => None
           end
      else None
  end.

End Wiring.

(** The times of the clicks of a history of the page. *)
Fixpoint clicks (tr : list Event) : list Z :=
  match tr with
  | [] => []
  | (now, Click) :: tr' => now :: clicks tr'
  | _ :: tr' => clicks tr'
  end.

End App.

(** ** The hook, render by render

    [start], [pause] and [toggle] are [useCallback] closures: each of them
    reads [state.status] and [state.remainingMs] of the render that created
    it, and a caller may keep it across renders, as [TimerDisplay] keeps
    [onToggle] for the 500 ms of its timeout.  [window.setInterval] hands
    out handles that stay live until [clearInterval] is given them, and
    [start] stores a new handle in [intervalRef] without clearing the one
    it replaces.  This module keeps the state a callback was rendered with
    apart from the state of the hook it is called on, and keeps every live
    handle. *)

Module Renders.

Import Timer.

(** One instance of the hook: the React state, the three refs, the handles
    [window.setInterval] has returned that have not been cleared, and the
    two observers of [Timer.Hook]. *)
Record Hook := mkHook {
  state : TimerState;
  intervalRef : option nat;
  startTimeRef : Z;
  remainingAtStartRef : Z;
  live : list nat;
  intervals : nat;
  completions : nat
}.

Definition setState (f : TimerState -> TimerState) (h : Hook) : Hook :=
  mkHook (f (state h)) (intervalRef h) (startTimeRef h)
         (remainingAtStartRef h) (live h) (intervals h) (completions h).

Definition state_eqb (a b : TimerState) : bool :=
  (remainingMs a =? remainingMs b) && status_eqb (status a) (status b)
  && (initialMs a =? initialMs b).

(** [useTimer(options)]: the first render. *)
Definition useTimer (initialDuration : option Z) : Hook :=
  let initialDuration :=
    match initialDuration with
    | Some d => d
    | None => DEFAULT_DURATION_MS
    end in
  mkHook (mkTimerState initialDuration idle initialDuration)
         None 0 0 [] 0%nat 0%nat.

(** [clearInterval(id)]. *)
Definition clearInterval (id : nat) (h : Hook) : Hook :=
  mkHook (state h) (intervalRef h) (startTimeRef h) (remainingAtStartRef h)
         (filter (fun k => negb (k =? id)%nat) (live h))
         (intervals h) (completions h).

Definition stopInterval (h : Hook) : Hook :=
  match intervalRef h with
  | Some id =>
      let h1 := clearInterval id h in
      mkHook (state h1) None (startTimeRef h1) (remainingAtStartRef h1)
             (live h1) (intervals h1) (completions h1)
  | None => h
  end.

Definition onComplete (h : Hook) : Hook :=
  mkHook (state h) (intervalRef h) (startTimeRef h) (remainingAtStartRef h)
         (live h) (intervals h) (S (completions h)).

(** The callback given to [window.setInterval]; [now] is [Date.now()].
    [stopInterval] and [onComplete] are called inside the function given to
    [setState]; React runs that function once, and again [reruns] times
    when it replays it (once more under StrictMode in development), each
    time on the same previous state. *)
Definition intervalCallback (reruns : nat) (now : Z) (h : Hook) : Hook :=
  let elapsed := now - startTimeRef h in
  let newRemaining := Z.max 0 (remainingAtStartRef h - elapsed) in
  if newRemaining <=? 0
  then
    setState (fun prev => mkTimerState 0 completed (initialMs prev))
             (Nat.iter (S reruns) (fun h => onComplete (stopInterval h)) h)
  else
    setState (fun prev => mkTimerState newRemaining (status prev) (initialMs prev)) h.

(** [start] as created by the render whose state is [rendered]; [now] is
    [Date.now()]. *)
Definition start (rendered : TimerState) (now : Z) (h : Hook) : Hook :=
  if status_eqb (status rendered) running then h
  else if remainingMs rendered <=? 0 then h
  else
    let h1 :=
      mkHook (state h) (intervalRef h) now (remainingMs rendered)
             (live h) (intervals h) (completions h) in
    let h2 :=
      setState (fun prev => mkTimerState (remainingMs prev) running (initialMs prev)) h1 in
    mkHook (state h2) (Some (intervals h2)) (startTimeRef h2)
           (remainingAtStartRef h2) (live h2 ++ [intervals h2])
           (S (intervals h2)) (completions h2).

(** [pause] as created by the render whose state is [rendered]. *)
Definition pause (rendered : TimerState) (h : Hook) : Hook :=
  if negb (status_eqb (status rendered) running) then h
  else
    setState (fun prev => mkTimerState (remainingMs prev) paused (initialMs prev))
             (stopInterval h).

(** [reset] reads nothing of the render: it is the same function in every
    render. *)
Definition reset (h : Hook) : Hook :=
  setState (fun prev => mkTimerState (initialMs prev) idle (initialMs prev))
           (stopInterval h).

(** [toggle] as created by the render whose state is [rendered], with the
    [start] and [pause] of that render. *)
Definition toggle (rendered : TimerState) (now : Z) (h : Hook) : Hook :=
  match status rendered with
  | running => pause rendered h
  | idle | paused => start rendered now h
  | completed => reset h
  end.

Definition setDuration (ms : Z) (h : Hook) : Hook :=
  let safeDuration := Z.max MIN_DURATION_MS ms in
  setState (fun _ => mkTimerState safeDuration idle safeDuration)
           (stopInterval h).

Definition progress (h : Hook) : Q :=
  if 0 <? initialMs (state h)
  then (inject_Z (initialMs (state h) - remainingMs (state h))
          / inject_Z (initialMs (state h)))%Q
  else 0%Q.

(** *** Events

    A call of one of the five functions, with the state of the render the
    function comes from where it reads one, or the browser running the
    callback of the interval [id], which it does as long as the handle is
    live. *)

Inductive Op :=
| OpStart (rendered : TimerState)
| OpPause (rendered : TimerState)
| OpToggle (rendered : TimerState)
| OpReset
| OpSetDuration (ms : Z)
| OpTick (id : nat) (reruns : nat).

Definition Event : Type := Z * Op.

Definition isLive (id : nat) (h : Hook) : bool :=
  existsb (Nat.eqb id) (live h).

Definition tick (id reruns : nat) (now : Z) (h : Hook) : Hook :=
  if isLive id h then intervalCallback reruns now h else h.

Definition step (e : Event) (h : Hook) : Hook :=
  let (now, op) := e in
  match op with
  | OpStart rendered => start rendered now h
  | OpPause rendered => pause rendered h
  | OpToggle rendered => toggle rendered now h
  | OpReset => reset h
  | OpSetDuration ms => setDuration ms h
  | OpTick id reruns => tick id reruns now h
  end.

Definition run (tr : list Event) (h : Hook) : Hook :=
  fold_left (fun h e => step e h) tr h.

(** The readings of the clock along [tr] never decrease, starting from
    the reading [t0]. *)
Fixpoint chronological (t0 : Z) (tr : list Event) : bool :=
  match tr with
  | [] => true
  | (now, _) :: tr' => (t0 <=? now) && chronological now tr'
  end.

Definition lastTime (t0 : Z) (tr : list Event) : Z :=
  fold_left (fun _ e => fst e) tr t0.

(** The function called comes from the render that is current: the state
    it was rendered with is the state of the hook. *)
Definition current (op : Op) (h : Hook) : bool :=
  match op with
  | OpStart rendered | OpPause rendered | OpToggle rendered =>
      state_eqb rendered (state h)
  | _ => true
  end.

(** Every call of the history is made through the render that is current
    at the time of the call. *)
Fixpoint currentRenders (tr : list Event) (h : Hook) : bool :=
  match tr with
  | [] => true
  | e :: tr' => current (snd e) h && currentRenders tr' (step e h)
  end.

(** No event of the history is a [setDuration]. *)
Definition keepsDuration (tr : list Event) : bool :=
  forallb (fun e => match snd e with OpSetDuration _ => false | _ => true end) tr.

(** At most the handle in [intervalRef] is live. *)
Definition oneHandle (h : Hook) : Prop :=
  live h = match intervalRef h with Some id => [id] | None => [] end.

(** What the hook keeps while every call comes from the current render;
    [t] is the current clock reading. *)
Definition Steady (t : Z) (h : Hook) : Prop :=
  oneHandle h /\
  remainingMs (state h) <= initialMs (state h) /\
  (0 < initialMs (state h) -> 0 <= remainingMs (state h)) /\
  (status (state h) = completed -> remainingMs (state h) = 0) /\
  (status (state h) = running <-> intervalRef h <> None) /\
  (intervalRef h <> None ->
     0 < remainingAtStartRef h <= initialMs (state h) /\
     startTimeRef h <= t /\
     Z.max 0 (remainingAtStartRef h - (t - startTimeRef h))
       <= remainingMs (state h)) /\
  (initialMs (state h) <= 0 ->
   status (state h) = idle /\ remainingMs (state h) = initialMs (state h)).

(** The part of [Steady] that does not depend on the clock. *)
Definition Tidy (h : Hook) : Prop :=
  oneHandle h /\
  (status (state h) = running <-> intervalRef h <> None) /\
  (status (state h) = completed -> remainingMs (state h) = 0) /\
  (initialMs (state h) <= 0 ->
   status (state h) = idle /\ remainingMs (state h) = initialMs (state h)).


(** A timer of one second as its first render shows it, and two short
    histories of it, every call made through the current render: a
    countdown with one tick, and a countdown run to its end. *)
Definition oneSecond : TimerState := mkTimerState 1000 idle 1000.

Definition begun : list Event := [(0, OpStart oneSecond); (16, OpTick 0 0)].

Definition ended : list Event := [(0, OpStart oneSecond); (1000, OpTick 0 0)].

(** [start] called twice by one handler: both calls are the [start] of the
    first render. *)
Definition startedTwice : list Event :=
  [(0, OpStart (state (useTimer None))); (300, OpStart (state (useTimer None)))].

(** The hook without its list of live handles. *)
Definition erase (h : Hook) : Timer.Hook :=
  Timer.mkHook (state h) (intervalRef h) (startTimeRef h)
               (remainingAtStartRef h) (intervals h) (completions h).

(** A call of [Timer] made through the current render, and a tick of
    [Timer] as the run of the callback of the handle in [intervalRef],
    run once. *)
Definition liftOp (op : Timer.Op) (h : Hook) : Op :=
  match op with
  | Timer.OpStart => OpStart (state h)
  | Timer.OpPause => OpPause (state h)
  | Timer.OpToggle => OpToggle (state h)
  | Timer.OpReset => OpReset
  | Timer.OpSetDuration ms => OpSetDuration ms
  | Timer.OpTick =>
      OpTick (match intervalRef h with Some id => id | None => 0%nat end) 0
  end.

Fixpoint lift (tr : list Timer.Event) (h : Hook) : list Event :=
  match tr with
  | [] => []
  | (now, op) :: tr' =>
      (now, liftOp op h) :: lift tr' (step (now, liftOp op h) h)
  end.

End Renders.

(** ** The page, render by render

    [TimerDisplay] mounted on one hook as in [App]: [onReset] is
    [timer.reset] and [onToggle] is [timer.toggle].  The callback a click
    hands to [setTimeout] closes over the [onToggle] of the render the
    click happened in. *)

Module Page.

Import Timer Clicks Renders.

(** [closures] holds, for each pending timeout of [surface] and in the same
    order, the state of the render whose [toggle] it will call. *)
Record World := mkWorld {
  surface : Surface;
  closures : list TimerState;
  hook : Hook
}.

Definition mounted (initialDuration : option Z) : World :=
  mkWorld mount [] (useTimer initialDuration).

Inductive Input :=
| Click
| Expire (k : nat)
| Tick (id : nat) (reruns : nat).

Definition Event : Type := Z * Input.

(** The event has added a call to the log of the surface. *)
Definition called (before after : Surface) : bool :=
  (List.length (calls before) <? List.length (calls after))%nat.

Definition step (now : Z) (i : Input) (w : World) : option World :=
  match i with
  | Click =>
      let s' := handleClick now (surface w) in
      if called (surface w) s'
      then Some (mkWorld s' (closures w) (reset (hook w)))
      else Some (mkWorld s' (closures w ++ [state (hook w)]) (hook w))
  | Expire k =>
      match Clicks.step now (Clicks.Expire k) (surface w),
            nth_error (closures w) k with
      | Some s', Some rendered =>
          Some (mkWorld s' (removeAt k (closures w))
                  (if called (surface w) s'
                   then toggle rendered now (hook w)
                   else hook w))
      | _, _ => None
      end
  | Tick id reruns =>
      Some (mkWorld (surface w) (closures w) (tick id reruns now (hook w)))
  end.

Fixpoint run (t0 : Z) (tr : list Event) (w : World) : option World :=
  match tr with
  | [] => Some w
  | (now, i) :: tr' =>
      if t0 <=? now
      then match step now i w with
           | Some w' => run now tr' w'
           | None => None
           end
      else None
  end.

(** The hook a history of the page leaves. *)
Definition hookAfter (tr : list Event) (w : World) : option Hook :=
  option_map hook (run 0 tr w).

(** *** Two histories of the page

    Three clicks at 0, 499 and 600: the first two are 499 ms apart, so both
    are in the buffer when the timeout of the first runs at 500 and starts
    the timer; the third click finds the buffer empty.  The history stops
    before the timeout of the second click, with the ticks of the interval
    at 516 and 980. *)
Definition twoClicksAndOne : list Event :=
  [(0, Click); (499, Click); (500, Expire 0); (516, Tick 0 0);
   (600, Click); (980, Tick 0 0)].

(** At 999 the timeout of the second click runs: the buffer holds the third
    click, so it calls the [onToggle] it closed over at 499, when the timer
    was idle. *)
Definition secondTimeout : list Event := twoClicksAndOne ++ [(999, Expire 0)].

(** Then a tick of the new interval, and the timeout of the third click,
    which finds the buffer empty. *)
Definition afterSecondTimeout : list Event :=
  secondTimeout ++ [(1015, Tick 1 0); (1100, Expire 0)].

(** The countdown runs to its end: the tick of the interval in
    [intervalRef] at 1500999 computes 0. *)
Definition countedDown : list Event :=
  afterSecondTimeout ++ [(1500999, Tick 1 0)].

(** The next [n] ticks of the first interval, 16 ms apart. *)
Definition leakedTicks (n : nat) : list Event :=
  map (fun k => (1500999 + 16 * Z.of_nat (S k), Tick 0 0)) (seq 0 n).

(** A click starts the timer at 500; a second click at 1500300 comes while
    the countdown is in its last 200 ms, and the tick at 1500500 completes
    it. *)
Definition lateClick : list Event :=
  [(0, Click); (500, Expire 0); (1500284, Tick 0 0); (1500300, Click);
   (1500500, Tick 0 0)].

(** The timeout of the second click runs at 1500800. *)
Definition lateToggle : list Event := lateClick ++ [(1500800, Expire 0)].

(** One more click, with its timeout. *)
Definition nextToggle : list Event :=
  lateToggle ++ [(1502000, Click); (1502500, Expire 0)].

(** The page once [countedDown] is over, with [c] calls of [onComplete]. *)
Definition finishedWith (c : nat) : World :=
  mkWorld (mkSurface [] [] [(500, OnToggle); (999, OnToggle)])
          []
          (mkHook (mkTimerState 0 completed 1500000) None 999 1500000
                  [0%nat] 2 c).

End Page.

(** * Properties *)

(** ** [formatTime] *)

Module FormatFacts.

Import Format.
Local Open Scope string_scope.

Lemma pos_to_uint_norm (p : positive) :
  Decimal.unorm (Pos.to_uint p) = Pos.to_uint p.
Proof.
  rewrite <- DecimalPos.Unsigned.to_of.
  rewrite DecimalPos.Unsigned.of_to. reflexivity.
Qed.

Lemma pos_to_uint_nonnil (p : positive) : Pos.to_uint p <> Decimal.Nil.
Proof.
  rewrite <- pos_to_uint_norm. unfold Decimal.unorm.
  destruct (Decimal.nzhead (Pos.to_uint p)); discriminate.
Qed.

(** [toString] writes the decimal numeral of its argument. *)
Lemma parse_toString (n : Z) : parse (toString n) = Some n.
Proof.
  unfold parse, toString.
  rewrite NilZero.isi.
  - cbn [option_map]. now rewrite DecimalZ.of_to.
  - destruct n; cbn [Z.to_int]; intros E; inversion E as [E'].
    now apply pos_to_uint_nonnil in E'.
  - destruct n; cbn [Z.to_int]; intros E; inversion E as [E'].
    now apply pos_to_uint_nonnil in E'.
Qed.

(** The numeral of a positive number does not start with a zero. *)
Lemma toString_pos_unpadded (p : positive) (rest : string) :
  toString (Z.pos p) <> String "0" rest.
Proof.
  unfold toString. cbn [Z.to_int NilZero.string_of_int].
  pose proof (pos_to_uint_norm p) as Hn.
  pose proof (DecimalPos.Unsigned.to_uint_nonzero p) as Hz.
  pose proof (nzhead_nonzero (Pos.to_uint p)) as Hh.
  unfold Decimal.unorm in Hn.
  destruct (Decimal.nzhead (Pos.to_uint p)) eqn:E; rewrite <- Hn.
  all: try (cbn; discriminate).
  - exfalso. apply Hz. now rewrite <- Hn.
  - exfalso. now eapply Hh.
Qed.

Lemma padStart_two_table :
  forallb
    (fun k => String.eqb (padStart 2 "0" (toString (Z.of_nat k)))
                         (twoDigits (Z.of_nat k)))
    (seq 0 100) = true.
Proof. vm_compute. reflexivity. Qed.

(** Below one hundred, [padStart 2 "0"] of the numeral is the tens digit
    followed by the units digit. *)
Lemma padStart_two (n : Z) :
  0 <= n < 100 -> padStart 2 "0" (toString n) = twoDigits n.
Proof.
  intros Hn.
  pose proof padStart_two_table as T.
  rewrite forallb_forall in T.
  specialize (T (Z.to_nat n)).
  rewrite Z2Nat.id in T by lia.
  apply String.eqb_eq, T, in_seq. lia.
Qed.

Section Fields.

Variable ms : Z.
Let safeMs := Z.max 0 ms.
Let t := formatTime ms.

Lemma hours_eq : hours t = safeMs / 3600000.
Proof. reflexivity. Qed.

Lemma minutes_eq : minutes t = (safeMs mod 3600000) / 60000.
Proof.
  subst t safeMs. cbn [formatTime minutes].
  change (1000 * 60 * 60) with 3600000. change (1000 * 60) with 60000.
  now rewrite Z.rem_mod_nonneg by lia.
Qed.

Lemma seconds_eq : seconds t = (safeMs mod 60000) / 1000.
Proof.
  subst t safeMs. cbn [formatTime seconds].
  change (1000 * 60) with 60000.
  now rewrite Z.rem_mod_nonneg by lia.
Qed.

Lemma milliseconds_eq : milliseconds t = safeMs mod 1000.
Proof.
  subst t safeMs. cbn [formatTime milliseconds].
  now rewrite Z.rem_mod_nonneg by lia.
Qed.

Lemma fields_range :
  0 <= hours t /\ 0 <= minutes t < 60 /\ 0 <= seconds t < 60 /\
  0 <= milliseconds t < 1000.
Proof.
  rewrite hours_eq, minutes_eq, seconds_eq, milliseconds_eq.
  assert (0 <= safeMs) by (subst safeMs; lia).
  pose proof (Z.mod_pos_bound safeMs 3600000).
  pose proof (Z.mod_pos_bound safeMs 60000).
  pose proof (Z.mod_pos_bound safeMs 1000).
  repeat split; try lia.
  - apply Z.div_pos; lia.
  - apply Z.div_pos; lia.
  - apply Z.div_lt_upper_bound; lia.
  - apply Z.div_pos; lia.
  - apply Z.div_lt_upper_bound; lia.
Qed.

Lemma fields_sum :
  safeMs =
  hours t * 3600000 + minutes t * 60000 + seconds t * 1000 + milliseconds t.
Proof.
  rewrite hours_eq, minutes_eq, seconds_eq, milliseconds_eq.
  pose proof (Z.div_mod safeMs 3600000).
  pose proof (Z.div_mod (safeMs mod 3600000) 60000).
  pose proof (Z.div_mod (safeMs mod 60000) 1000).
  assert (E1 : (safeMs mod 3600000) mod 60000 = safeMs mod 60000).
  { apply Z.mod_mod_divide. exists 60. reflexivity. }
  assert (E2 : (safeMs mod 60000) mod 1000 = safeMs mod 1000).
  { apply Z.mod_mod_divide. exists 60. reflexivity. }
  lia.
Qed.

Lemma display_eq :
  display t =
  if (0 <? hours t)%Z
  then toString (hours t) ++ ":" ++ twoDigits (minutes t)
         ++ ":" ++ twoDigits (seconds t)
  else twoDigits (minutes t) ++ ":" ++ twoDigits (seconds t).
Proof.
  pose proof fields_range as (_ & Hm & Hs & _).
  rewrite <- (padStart_two (minutes t)) by lia.
  rewrite <- (padStart_two (seconds t)) by lia.
  reflexivity.
Qed.

End Fields.

(** C9: [formatTime] splits a non-negative millisecond count into hours,
    minutes below 60, seconds below 60 and milliseconds below 1000 that add
    up to it.  The display leaves the hour field out when the hours are zero;
    otherwise the hour field is the plain decimal numeral of the hours, which
    has no leading zero; minutes and seconds are always written with two
    digits.  [formatTime 0] displays 00:00 and [formatTime 3661000]
    displays 1:01:01. *)
Theorem formatTime_fields_and_display (ms : Z) :
  0 <= ms ->
  let t := formatTime ms in
  ms = hours t * 3600000 + minutes t * 60000 + seconds t * 1000
       + milliseconds t /\
  (0 <= hours t /\ 0 <= minutes t < 60 /\ 0 <= seconds t < 60 /\
   0 <= milliseconds t < 1000)%Z /\
  (hours t = 0 ->
   display t = twoDigits (minutes t) ++ ":" ++ twoDigits (seconds t)) /\
  ((0 < hours t)%Z ->
   display t = toString (hours t) ++ ":" ++ twoDigits (minutes t)
                 ++ ":" ++ twoDigits (seconds t) /\
   parse (toString (hours t)) = Some (hours t) /\
   forall rest, toString (hours t) <> String "0" rest) /\
  display (formatTime 0) = "00:00" /\
  display (formatTime 3661000) = "1:01:01".
Proof.
  intros Hms t.
  split.
  { pose proof (fields_sum ms) as E. rewrite Z.max_r in E by exact Hms.
    exact E. }
  split; [apply fields_range|].
  split.
  { intros H0. subst t. rewrite display_eq, H0. reflexivity. }
  split.
  { intros Hpos. subst t. rewrite display_eq.
    apply Z.ltb_lt in Hpos as Hb. rewrite Hb.
    split; [reflexivity|]. split; [apply parse_toString|].
    destruct (hours (formatTime ms)) as [|p|p]; try lia.
    apply toString_pos_unpadded. }
  split; reflexivity.
Qed.

Lemma formatTime_fields_and_display_witness :
  display (formatTime 3661000) =
    toString 1 ++ ":" ++ twoDigits 1 ++ ":" ++ twoDigits 1 /\
  display (formatTime 61000) = twoDigits 1 ++ ":" ++ twoDigits 1.
Proof.
  split.
  - destruct (formatTime_fields_and_display 3661000) as (_ & _ & _ & H & _).
    + lia.
    + destruct H as [E _]; [reflexivity | exact E].
  - destruct (formatTime_fields_and_display 61000) as (_ & _ & H & _).
    + lia.
    + apply H. reflexivity.
Defined.

(** *** Reading the display back *)

Lemma length_append (s1 s2 : string) :
  String.length (s1 ++ s2) = (String.length s1 + String.length s2)%nat.
Proof. induction s1 as [|c s1 IH]; cbn; [reflexivity | now rewrite IH]. Qed.

Lemma append_inv (s1 : string) : forall s2 t1 t2,
  String.length s1 = String.length s2 ->
  s1 ++ t1 = s2 ++ t2 -> s1 = s2 /\ t1 = t2.
Proof.
  induction s1 as [|c s1 IH]; intros [|d s2] t1 t2 Hl E; cbn in *;
    try discriminate.
  - auto.
  - injection E as -> E. injection Hl as Hl.
    destruct (IH _ _ _ Hl E) as [-> ->]. auto.
Qed.

Lemma append_inv_tail (s1 s2 t1 t2 : string) :
  String.length t1 = String.length t2 ->
  s1 ++ t1 = s2 ++ t2 -> s1 = s2 /\ t1 = t2.
Proof.
  intros Hl E. apply append_inv; [|exact E].
  apply (f_equal String.length) in E. rewrite !length_append in E. lia.
Qed.

Lemma toString_nonempty (n : Z) : toString n <> "".
Proof.
  intros E. pose proof (parse_toString n) as P. rewrite E in P. discriminate.
Qed.

Lemma toString_inj (a b : Z) : toString a = toString b -> a = b.
Proof.
  intros E. pose proof (parse_toString a) as P.
  rewrite E, parse_toString in P. now injection P.
Qed.

Lemma digit_inj (a b : Z) :
  (0 <= a < 10)%Z -> (0 <= b < 10)%Z -> digit a = digit b -> a = b.
Proof.
  intros Ha Hb E. unfold digit in E.
  apply (f_equal nat_of_ascii) in E.
  rewrite !nat_ascii_embedding in E by lia. lia.
Qed.

Lemma twoDigits_inj (a b : Z) :
  (0 <= a < 100)%Z -> (0 <= b < 100)%Z -> twoDigits a = twoDigits b -> a = b.
Proof.
  intros Ha Hb E. unfold twoDigits in E. injection E as E1 E2.
  pose proof (Z.mod_pos_bound a 10). pose proof (Z.mod_pos_bound b 10).
  apply digit_inj in E1; [|split; [apply Z.div_pos | apply Z.div_lt_upper_bound];
                           lia ..].
  apply digit_inj in E2; [|lia ..].
  pose proof (Z.div_mod a 10). pose proof (Z.div_mod b 10). lia.
Qed.

(** The whole seconds of a count are its hours, minutes and seconds. *)
Lemma whole_seconds (ms : Z) :
  (0 <= ms)%Z ->
  (ms / 1000 =
   hours (formatTime ms) * 3600 + minutes (formatTime ms) * 60
     + seconds (formatTime ms))%Z.
Proof.
  intros Hms. pose proof (fields_sum ms) as E.
  pose proof (fields_range ms) as (Hh & Hm & Hs & Hl).
  rewrite Z.max_r in E by exact Hms.
  symmetry. apply (Z.div_unique_pos ms 1000 _ (milliseconds (formatTime ms)));
    lia.
Qed.

Lemma two_fields_inj (m1 s1 m2 s2 : Z) :
  (0 <= m1 < 100)%Z -> (0 <= s1 < 100)%Z ->
  (0 <= m2 < 100)%Z -> (0 <= s2 < 100)%Z ->
  twoDigits m1 ++ ":" ++ twoDigits s1 = twoDigits m2 ++ ":" ++ twoDigits s2 ->
  m1 = m2 /\ s1 = s2.
Proof.
  intros Hm1 Hs1 Hm2 Hs2 E. unfold twoDigits in E. cbn [append] in E.
  injection E as A B C D.
  split; apply twoDigits_inj; try assumption; unfold twoDigits; congruence.
Qed.

Lemma display_fields (a b : Z) :
  display (formatTime a) = display (formatTime b) ->
  hours (formatTime a) = hours (formatTime b) /\
  minutes (formatTime a) = minutes (formatTime b) /\
  seconds (formatTime a) = seconds (formatTime b).
Proof.
  rewrite !display_eq.
  pose proof (fields_range a) as (Hha & Hma & Hsa & _).
  pose proof (fields_range b) as (Hhb & Hmb & Hsb & _).
  generalize dependent (hours (formatTime a)).
  generalize dependent (minutes (formatTime a)).
  generalize dependent (seconds (formatTime a)).
  generalize dependent (hours (formatTime b)).
  generalize dependent (minutes (formatTime b)).
  generalize dependent (seconds (formatTime b)).
  intros sb Hsb mb Hmb hb Hhb sa Hsa ma Hma ha Hha.
  destruct (Z.ltb_spec 0 ha) as [Ha | Ha];
    destruct (Z.ltb_spec 0 hb) as [Hb | Hb]; intros E.
  - apply append_inv_tail in E as [E1 E2]; [|reflexivity].
    apply toString_inj in E1.
    apply (append_inv ":" ":") in E2 as [_ E2]; [|reflexivity].
    apply two_fields_inj in E2; [|lia ..]. intuition.
  - exfalso. apply (f_equal String.length) in E.
    rewrite !length_append in E. cbn in E.
    pose proof (toString_nonempty ha) as N.
    destruct (toString ha); [congruence | cbn in E; lia].
  - exfalso. apply (f_equal String.length) in E.
    rewrite !length_append in E. cbn in E.
    pose proof (toString_nonempty hb) as N.
    destruct (toString hb); [congruence | cbn in E; lia].
  - apply two_fields_inj in E; [|lia ..]. split; [lia | exact E].
Qed.

(** X1: two non-negative counts are displayed alike exactly when they have
    the same number of whole seconds: the display drops the milliseconds
    and nothing else. *)
Theorem display_whole_seconds (a b : Z) :
  (0 <= a)%Z -> (0 <= b)%Z ->
  (display (formatTime a) = display (formatTime b) <->
   (a / 1000 = b / 1000)%Z).
Proof.
  intros Ha Hb.
  pose proof (fields_range a) as (Hha & Hma & Hsa & _).
  pose proof (fields_range b) as (Hhb & Hmb & Hsb & _).
  pose proof (whole_seconds a Ha) as Sa.
  pose proof (whole_seconds b Hb) as Sb.
  split.
  - intros E. apply display_fields in E as (E1 & E2 & E3).
    rewrite Sa, Sb, E1, E2, E3. reflexivity.
  - intros E. rewrite Sa, Sb in E.
    assert (hours (formatTime a) = hours (formatTime b)) as E1 by lia.
    assert (minutes (formatTime a) = minutes (formatTime b)) as E2 by lia.
    assert (seconds (formatTime a) = seconds (formatTime b)) as E3 by lia.
    rewrite !display_eq, E1, E2, E3. reflexivity.
Qed.

Lemma display_whole_seconds_witness :
  display (formatTime 61000) = display (formatTime 61999).
Proof.
  apply (display_whole_seconds 61000 61999); [lia | lia | reflexivity].
Defined.

(** A count that is zero or negative is formatted as zero: every field
    is 0 and the display is 00:00. *)
Lemma formatTime_nonpositive (ms : Z) :
  (ms <= 0)%Z -> formatTime ms = mkFormattedTime 0 0 0 0 "00:00".
Proof.
  intros H. unfold formatTime. rewrite Z.max_l by exact H. reflexivity.
Qed.

Lemma formatTime_nonpositive_witness :
  formatTime (-250) = mkFormattedTime 0 0 0 0 "00:00".
Proof. apply formatTime_nonpositive. lia. Defined.

Lemma padStart_three_table :
  forallb
    (fun k => String.eqb (padStart 3 "0" (toString (Z.of_nat k)))
                         (threeDigits (Z.of_nat k)))
    (seq 0 1000) = true.
Proof. vm_compute. reflexivity. Qed.

Lemma padStart_three (n : Z) :
  (0 <= n < 1000)%Z -> padStart 3 "0" (toString n) = threeDigits n.
Proof.
  intros Hn.
  pose proof padStart_three_table as T.
  rewrite forallb_forall in T.
  specialize (T (Z.to_nat n)).
  rewrite Z2Nat.id in T by lia.
  apply String.eqb_eq, T, in_seq. lia.
Qed.

Lemma threeDigits_inj (a b : Z) :
  (0 <= a < 1000)%Z -> (0 <= b < 1000)%Z ->
  threeDigits a = threeDigits b -> a = b.
Proof.
  intros Ha Hb E. unfold threeDigits in E. injection E as E1 E2 E3.
  pose proof (Z.mod_pos_bound a 10). pose proof (Z.mod_pos_bound b 10).
  pose proof (Z.mod_pos_bound (a / 10) 10).
  pose proof (Z.mod_pos_bound (b / 10) 10).
  apply digit_inj in E1; [|split; [apply Z.div_pos | apply Z.div_lt_upper_bound];
                           lia ..].
  apply digit_inj in E2; [|lia ..]. apply digit_inj in E3; [|lia ..].
  pose proof (Z.div_mod a 10). pose proof (Z.div_mod b 10).
  pose proof (Z.div_mod (a / 10) 10). pose proof (Z.div_mod (b / 10) 10).
  assert (a / 10 / 10 = a / 100)%Z by (rewrite Z.div_div by lia; reflexivity).
  assert (b / 10 / 10 = b / 100)%Z by (rewrite Z.div_div by lia; reflexivity).
  lia.
Qed.

Lemma milliseconds_text (ms : Z) :
  formatMilliseconds (milliseconds (formatTime ms)) =
    String "." (threeDigits (milliseconds (formatTime ms))).
Proof.
  pose proof (fields_range ms) as (_ & _ & _ & Hl).
  unfold formatMilliseconds. now rewrite padStart_three by exact Hl.
Qed.

(** X2: the milliseconds field [formatTime] returns is always written by
    [formatMilliseconds] as a dot followed by exactly three digits:
    hundreds, tens and units. *)
Theorem formatMilliseconds_of_field (ms : Z) :
  formatMilliseconds (milliseconds (formatTime ms)) =
    String "." (threeDigits (milliseconds (formatTime ms))) /\
  String.length (formatMilliseconds (milliseconds (formatTime ms))) = 4%nat.
Proof.
  rewrite milliseconds_text. split; reflexivity.
Qed.

(** X3: the display and the milliseconds string together determine a
    non-negative count. *)
Theorem formatted_time_injective (a b : Z) :
  (0 <= a)%Z -> (0 <= b)%Z ->
  display (formatTime a) = display (formatTime b) ->
  formatMilliseconds (milliseconds (formatTime a)) =
    formatMilliseconds (milliseconds (formatTime b)) ->
  a = b.
Proof.
  intros Ha Hb Ed Em.
  apply display_fields in Ed as (E1 & E2 & E3).
  pose proof (fields_range a) as (_ & _ & _ & Hla).
  pose proof (fields_range b) as (_ & _ & _ & Hlb).
  rewrite !milliseconds_text in Em.
  apply (append_inv "." ".") in Em as [_ Em]; [|reflexivity].
  apply threeDigits_inj in Em; [|assumption ..].
  pose proof (fields_sum a) as Sa. pose proof (fields_sum b) as Sb.
  rewrite Z.max_r in Sa, Sb by assumption. lia.
Qed.

Lemma formatted_time_injective_witness : 1500 = 1500.
Proof.
  apply (formatted_time_injective 1500 1500); [lia | lia | reflexivity | reflexivity].
Defined.

End FormatFacts.

(** ** [formatCustomPresetDisplay] *)

Module NavFacts.

Import Format Nav FormatFacts.
Local Open Scope string_scope.

Lemma toString_head (n : Z) :
  exists c rest, toString n = String c rest /\ c <> "w"%char.
Proof.
  unfold toString. destruct n as [|p|p]; cbn.
  - eexists _, _. split; [reflexivity | discriminate].
  - destruct (Pos.to_uint p); cbn;
      eexists _, _; (split; [reflexivity | discriminate]).
  - eexists _, _. split; [reflexivity | discriminate].
Qed.

Lemma toString_not_wow (n : Z) (x : string) : toString n ++ x <> "wow..".
Proof.
  destruct (toString_head n) as (c & rest & -> & Hc). cbn. congruence.
Qed.

Lemma append_assoc (a b c : string) : (a ++ b) ++ c = a ++ (b ++ c).
Proof. induction a as [|x a IH]; cbn; [reflexivity | now rewrite IH]. Qed.

Lemma digit_not_m (d : Z) : (0 <= d < 10)%Z -> digit d <> "m"%char.
Proof.
  intros Hd E. unfold digit in E. apply (f_equal nat_of_ascii) in E.
  rewrite nat_ascii_embedding in E by lia. cbn in E. lia.
Qed.

(** The hours and minutes [formatCustomPresetDisplay] computes are those of
    [formatTime]. *)
Lemma preset_fields (ms : Z) :
  (0 <= ms)%Z ->
  (ms / (1000 * 60) / 60)%Z = hours (formatTime ms) /\
  Z.rem (ms / (1000 * 60)) 60 = minutes (formatTime ms).
Proof.
  intros Hms.
  rewrite hours_eq, minutes_eq, Z.max_r by exact Hms.
  change (1000 * 60)%Z with 60000%Z.
  assert (0 <= ms / 60000)%Z by (apply Z.div_pos; lia).
  rewrite Z.rem_mod_nonneg by lia.
  split.
  - rewrite Z.div_div by lia. reflexivity.
  - pose proof (Z.div_mod ms 3600000). pose proof (Z.mod_pos_bound ms 3600000).
    pose proof (Z.div_mod (ms mod 3600000) 60000).
    pose proof (Z.mod_pos_bound (ms mod 3600000) 60000).
    pose proof (Z.div_mod ms 60000). pose proof (Z.mod_pos_bound ms 60000).
    pose proof (Z.div_mod (ms / 60000) 60).
    pose proof (Z.mod_pos_bound (ms / 60000) 60).
    assert ((ms mod 3600000) / 60000 < 60)%Z
      by (apply Z.div_lt_upper_bound; lia).
    assert (0 <= (ms mod 3600000) / 60000)%Z by (apply Z.div_pos; lia).
    lia.
Qed.

Lemma preset_display_eq (ms : Z) :
  (0 <= ms < MAX_DURATION_MS)%Z ->
  formatCustomPresetDisplay ms =
  if (hours (formatTime ms) =? 0)%Z
  then toString (minutes (formatTime ms)) ++ "m"
  else toString (hours (formatTime ms)) ++ ":"
         ++ twoDigits (minutes (formatTime ms)).
Proof.
  intros [Hms Hmax]. unfold formatCustomPresetDisplay.
  destruct (preset_fields ms Hms) as [-> ->].
  pose proof (fields_range ms) as (Hh & Hm & _).
  assert (hours (formatTime ms) < 1000)%Z.
  { rewrite hours_eq, Z.max_r by exact Hms.
    apply Z.div_lt_upper_bound; [lia|]. unfold MAX_DURATION_MS in Hmax. lia. }
  destruct (Z.leb_spec 1000 (hours (formatTime ms))); [lia|].
  destruct (Z.ltb_spec 0 (hours (formatTime ms)));
    destruct (Z.eqb_spec (hours (formatTime ms)) 0); try lia.
  - now rewrite padStart_two by lia.
  - reflexivity.
Qed.

(** X4: below the cap, [formatCustomPresetDisplay] shows the hours and
    minutes that [formatTime] computes for the same count: the minutes
    followed by the letter m under one hour, and otherwise the unpadded
    hours, a colon and the minutes on two digits. *)
Theorem preset_display_agrees_with_formatTime (ms : Z) :
  (0 <= ms < MAX_DURATION_MS)%Z ->
  formatCustomPresetDisplay ms =
  if (hours (formatTime ms) =? 0)%Z
  then toString (minutes (formatTime ms)) ++ "m"
  else toString (hours (formatTime ms)) ++ ":"
         ++ twoDigits (minutes (formatTime ms)).
Proof. exact (preset_display_eq ms). Qed.

Lemma preset_display_agrees_with_formatTime_witness :
  formatCustomPresetDisplay 5400000 = "1:30" /\
  formatCustomPresetDisplay 1500000 = "25m".
Proof.
  split.
  - rewrite (preset_display_agrees_with_formatTime 5400000).
    + reflexivity.
    + unfold MAX_DURATION_MS. lia.
  - rewrite (preset_display_agrees_with_formatTime 1500000).
    + reflexivity.
    + unfold MAX_DURATION_MS. lia.
Defined.

(** X5: [formatCustomPresetDisplay] answers with the placeholder exactly
    from [MAX_DURATION_MS] on: every count below the cap, negative ones
    included, is written out. *)
Theorem preset_display_cap (ms : Z) :
  formatCustomPresetDisplay ms = "wow.." <-> (MAX_DURATION_MS <= ms)%Z.
Proof.
  unfold formatCustomPresetDisplay, MAX_DURATION_MS.
  change (1000 * 60)%Z with 60000%Z.
  rewrite Z.div_div by lia. change (60000 * 60)%Z with 3600000%Z.
  destruct (Z.leb_spec 1000 (ms / 3600000)) as [H | H].
  - split; [intros _ | reflexivity].
    pose proof (Z.mul_div_le ms 3600000). lia.
  - split.
    + destruct (0 <? ms / 3600000)%Z; intros E;
        now apply toString_not_wow in E.
    + intros Hle. exfalso.
      assert (1000 <= ms / 3600000)%Z by (apply Z.div_le_lower_bound; lia).
      lia.
Qed.

(** X6: below the cap, two non-negative counts get the same preset display
    exactly when they have the same number of whole minutes. *)
Theorem preset_display_whole_minutes (a b : Z) :
  (0 <= a < MAX_DURATION_MS)%Z -> (0 <= b < MAX_DURATION_MS)%Z ->
  (formatCustomPresetDisplay a = formatCustomPresetDisplay b <->
   (a / 60000 = b / 60000)%Z).
Proof.
  intros Ha Hb.
  rewrite (preset_display_eq a Ha).
  rewrite (preset_display_eq b Hb).
  destruct (preset_fields a (proj1 Ha)) as [Pa Qa].
  destruct (preset_fields b (proj1 Hb)) as [Pb Qb].
  change (1000 * 60)%Z with 60000%Z in *.
  assert (0 <= a / 60000)%Z by (apply Z.div_pos; lia).
  assert (0 <= b / 60000)%Z by (apply Z.div_pos; lia).
  rewrite Z.rem_mod_nonneg in Qa, Qb by lia.
  pose proof (Z.div_mod (a / 60000) 60) as Da.
  pose proof (Z.div_mod (b / 60000) 60) as Db.
  rewrite Pa, Qa in Da. rewrite Pb, Qb in Db.
  pose proof (fields_range a) as (Hha & Hma & _).
  pose proof (fields_range b) as (Hhb & Hmb & _).
  generalize dependent (hours (formatTime a)).
  generalize dependent (minutes (formatTime a)).
  generalize dependent (hours (formatTime b)).
  generalize dependent (minutes (formatTime b)).
  intros mb Qb Hmb hb Pb Db Hhb ma Qa Hma ha Pa Da Hha.
  destruct (Z.eqb_spec ha 0) as [Ea | Ea];
    destruct (Z.eqb_spec hb 0) as [Eb | Eb].
  - split.
    + intros E. apply append_inv_tail in E as [E _]; [|reflexivity].
      apply toString_inj in E. lia.
    + intros E. replace ma with mb by lia. reflexivity.
  - split; [|lia]. intros E. exfalso.
    change (toString hb ++ ":" ++ twoDigits mb)
      with (toString hb ++ (String ":" (String (digit (mb / 10)) "")
                              ++ String (digit (mb mod 10)) "")) in E.
    rewrite <- append_assoc in E.
    apply append_inv_tail in E as [_ E]; [|reflexivity].
    injection E as E. symmetry in E. revert E. apply digit_not_m.
    apply Z.mod_pos_bound. lia.
  - split; [|lia]. intros E. exfalso. symmetry in E.
    change (toString ha ++ ":" ++ twoDigits ma)
      with (toString ha ++ (String ":" (String (digit (ma / 10)) "")
                              ++ String (digit (ma mod 10)) "")) in E.
    rewrite <- append_assoc in E.
    apply append_inv_tail in E as [_ E]; [|reflexivity].
    injection E as E. symmetry in E. revert E. apply digit_not_m.
    apply Z.mod_pos_bound. lia.
  - split.
    + intros E. apply append_inv_tail in E as [E1 E2]; [|reflexivity].
      apply toString_inj in E1.
      apply (append_inv ":" ":") in E2 as [_ E2]; [|reflexivity].
      apply twoDigits_inj in E2; lia.
    + intros E. replace ma with mb by lia. replace ha with hb by lia.
      reflexivity.
Qed.

Lemma preset_display_whole_minutes_witness :
  formatCustomPresetDisplay 5400000 = formatCustomPresetDisplay 5459999.
Proof.
  apply (preset_display_whole_minutes 5400000 5459999);
    [unfold MAX_DURATION_MS; lia | unfold MAX_DURATION_MS; lia | reflexivity].
Defined.

End NavFacts.

(** ** The hook, called through the current render *)

Module TimerFacts.

Import Timer.

Ltac unfold_hook :=
  unfold step, tick, toggle, start, pause, reset, setDuration,
         intervalCallback, onComplete, stopInterval, setState, armed in *;
  cbn [state intervalRef startTimeRef remainingAtStartRef intervals completions
       remainingMs status initialMs status_eqb negb fst snd] in *.

Ltac split_leb :=
  repeat match goal with
         | |- context [?a <=? ?b] => destruct (Z.leb_spec a b)
         | H : context [?a <=? ?b] |- _ => destruct (Z.leb_spec a b)
         end.

Ltac hook_cases h :=
  destruct h as [[r s i] [k|] st ras n c]; destruct s; unfold_hook; split_leb;
  unfold_hook.

(** *** Frame properties *)

Lemma start_initialMs now h : initialMs (state (start now h)) = initialMs (state h).
Proof. hook_cases h; reflexivity. Qed.

Lemma pause_initialMs h : initialMs (state (pause h)) = initialMs (state h).
Proof. hook_cases h; reflexivity. Qed.

Lemma reset_initialMs h : initialMs (state (reset h)) = initialMs (state h).
Proof. hook_cases h; reflexivity. Qed.

Lemma toggle_initialMs now h : initialMs (state (toggle now h)) = initialMs (state h).
Proof. hook_cases h; reflexivity. Qed.

Lemma tick_initialMs now h : initialMs (state (tick now h)) = initialMs (state h).
Proof. hook_cases h; reflexivity. Qed.

(** *** The invariant *)

Lemma useTimer_Consistent d t : Consistent t (useTimer d).
Proof.
  unfold Consistent, useTimer; unfold_hook.
  repeat split; try lia; try discriminate.
Qed.

Lemma step_Consistent t now op h :
  Consistent t h -> t <= now -> Consistent now (step (now, op) h).
Proof.
  unfold Consistent. intros (H1 & H2 & H3 & H4 & H5 & H6) Ht.
  destruct op; hook_cases h; unfold MIN_DURATION_MS in *;
    repeat match goal with
           | |- _ /\ _ => split
           | |- _ <-> _ => split
           end;
    intros;
    try discriminate; try lia;
    try (destruct H4 as [H4a H4b]);
    try (specialize (H4a eq_refl)); try (specialize (H4b eq_refl));
    try discriminate;
    try (specialize (H5 eq_refl)); try lia; auto.
Qed.

Lemma run_Consistent tr : forall t0 h,
  chronological t0 tr = true -> Consistent t0 h ->
  Consistent (lastTime t0 tr) (run tr h).
Proof.
  induction tr as [|[now op] tr IH]; intros t0 h Hc Hh; cbn in *.
  - exact Hh.
  - apply andb_prop in Hc as [Hle Hc]. apply Z.leb_le in Hle.
    apply (IH now); [exact Hc|]. now apply (step_Consistent t0).
Qed.

Lemma step_positive e h :
  0 < initialMs (state h) -> 0 < initialMs (state (step e h)).
Proof.
  destruct e as [now op]. intros H.
  destruct op; hook_cases h; unfold MIN_DURATION_MS; lia.
Qed.

Lemma run_positive tr : forall h,
  0 < initialMs (state h) -> 0 < initialMs (state (run tr h)).
Proof.
  induction tr as [|e tr IH]; intros h H; cbn.
  - exact H.
  - apply IH. now apply step_positive.
Qed.

(** Created with a positive duration and called through the current
    render, the hook keeps the invariant of the data model along every
    history whose clock readings never decrease. *)
Lemma Invariant_reachable d t0 tr :
  0 < d -> chronological t0 tr = true ->
  Invariant (state (run tr (useTimer (Some d)))).
Proof.
  intros Hd Hc.
  pose proof (run_Consistent tr t0 _ Hc (useTimer_Consistent (Some d) t0))
    as (H1 & H2 & H3 & _).
  pose proof (run_positive tr (useTimer (Some d)) Hd) as Hp.
  unfold Invariant. repeat split; auto.
Qed.

Lemma Invariant_reachable_default t0 tr :
  chronological t0 tr = true -> Invariant (state (run tr (useTimer None))).
Proof.
  intros Hc.
  pose proof (run_Consistent tr t0 _ Hc (useTimer_Consistent None t0))
    as (H1 & H2 & H3 & _).
  assert (Hp : 0 < initialMs (state (run tr (useTimer None)))).
  { apply run_positive. cbn. unfold DEFAULT_DURATION_MS. lia. }
  unfold Invariant. repeat split; auto.
Qed.

(** C2, on the code.  [useTimer] stores the duration it is given as it is:
    created with the duration 0 the hook is in a state whose [initialMs] is
    not positive, and with a negative duration [remainingMs] is negative as
    well, so the invariant of the data model fails in the first state.
    [setDuration] applied to the same number enforces the minimum. *)
Theorem useTimer_duration_unclamped :
  state (useTimer (Some 0)) = mkTimerState 0 idle 0 /\
  ~ Invariant (state (useTimer (Some 0))) /\
  state (useTimer (Some (-5000))) = mkTimerState (-5000) idle (-5000) /\
  ~ Invariant (state (useTimer (Some (-5000)))) /\
  state (setDuration 0 (useTimer (Some 0))) = mkTimerState 1000 idle 1000.
Proof.
  repeat split; try reflexivity;
    intros (H1 & H2 & _); cbn in H1, H2; lia.
Qed.

(** C10: [start], [pause], [reset], [toggle] and the interval tick leave
    [initialMs] as it was, in every state; an operation after which
    [initialMs] differs is a [setDuration], and [setDuration] does change
    it. *)
Theorem initialMs_frame :
  (forall now h, initialMs (state (start now h)) = initialMs (state h)) /\
  (forall h, initialMs (state (pause h)) = initialMs (state h)) /\
  (forall h, initialMs (state (reset h)) = initialMs (state h)) /\
  (forall now h, initialMs (state (toggle now h)) = initialMs (state h)) /\
  (forall now h, initialMs (state (tick now h)) = initialMs (state h)) /\
  (forall now op h,
     initialMs (state (step (now, op) h)) <> initialMs (state h) ->
     exists ms, op = OpSetDuration ms) /\
  initialMs (state (setDuration 2000 (useTimer (Some 1000)))) <>
    initialMs (state (useTimer (Some 1000))).
Proof.
  repeat split.
  - apply start_initialMs.
  - apply pause_initialMs.
  - apply reset_initialMs.
  - apply toggle_initialMs.
  - apply tick_initialMs.
  - intros now op h H. destruct op; cbn [step] in H.
    + now rewrite start_initialMs in H.
    + now rewrite pause_initialMs in H.
    + now rewrite toggle_initialMs in H.
    + now rewrite reset_initialMs in H.
    + now exists ms.
    + now rewrite tick_initialMs in H.
  - cbn. discriminate.
Qed.

Lemma initialMs_frame_witness :
  exists ms, OpSetDuration 2000 = OpSetDuration ms.
Proof.
  apply (proj1 (proj2 (proj2 (proj2 (proj2 (proj2 initialMs_frame)))))
           0 (OpSetDuration 2000) (useTimer (Some 1000))).
  cbn. discriminate.
Defined.

(** *** The progress ratio *)


(** *** What every history keeps *)







End TimerFacts.

(** ** The click classifier *)

Module ClicksFacts.

Import Clicks.

(** *** Histories *)

Lemma run_split tr1 : forall t0 tr2 s,
  run t0 (tr1 ++ tr2) s =
  match run t0 tr1 s with
  | Some s1 => run (lastTime t0 tr1) tr2 s1
  | None => None
  end.
Proof.
  induction tr1 as [|[now i] tr1 IH]; intros t0 tr2 s; cbn.
  - reflexivity.
  - destruct (t0 <=? now); [|reflexivity].
    destruct (step now i s); [apply IH | reflexivity].
Qed.

Lemma run_after tr : forall t0 s s',
  run t0 tr s = Some s' -> forall e, In e tr -> t0 <= fst e.
Proof.
  induction tr as [|[now i] tr IH]; intros t0 s s' H e He; cbn in *.
  - contradiction.
  - destruct (Z.leb_spec t0 now); [|discriminate].
    destruct (step now i s) as [s1|]; [|discriminate].
    destruct He as [<- | He]; [exact H0|].
    specialize (IH _ _ _ H e He). lia.
Qed.

Lemma run_before pre : forall t0 s s' T i post,
  run t0 (pre ++ (T, i) :: post) s = Some s' ->
  forall e, In e pre -> fst e <= T.
Proof.
  induction pre as [|[now j] pre IH]; intros t0 s s' T i post H e He; cbn in *.
  - contradiction.
  - destruct (Z.leb_spec t0 now); [|discriminate].
    destruct (step now j s) as [s1|]; [|discriminate].
    destruct He as [<- | He].
    + apply (run_after _ _ _ _ H (T, i)). apply in_elt.
    + exact (IH _ _ _ _ _ _ H e He).
Qed.

(** A history with a last click splits there. *)
Lemma clicks_split tr : forall cs T,
  clicks tr = cs ++ [T] ->
  exists pre post,
    tr = pre ++ (T, Click) :: post /\ clicks pre = cs /\ clicks post = [].
Proof.
  induction tr as [|[now [|k]] tr IH]; intros cs T H; cbn in H.
  - now destruct cs.
  - destruct cs as [|c cs]; cbn in H.
    + injection H as -> H. exists [], tr. auto.
    + injection H as -> H. destruct (IH _ _ H) as (pre & post & -> & E1 & E2).
      exists ((c, Click) :: pre), post. cbn. now rewrite E1.
  - destruct (IH _ _ H) as (pre & post & -> & E1 & E2).
    exists ((now, Expire k) :: pre), post. auto.
Qed.

Lemma removeAt_length {A} (l : list A) : forall k x,
  nth_error l k = Some x -> S (List.length (removeAt k l)) = List.length l.
Proof.
  induction l as [|y l IH]; intros [|k] x H; cbn in *; try discriminate.
  - reflexivity.
  - now rewrite (IH k x H).
Qed.

Lemma last_cases {A} (l : list A) :
  l = [] \/ exists l' x, l = l' ++ [x].
Proof.
  induction l as [|x l _] using rev_ind; [now left | right; eauto].
Qed.

(** *** Clicks inside one window *)

Lemma filter_all {A} (f : A -> bool) (l : list A) :
  (forall x, In x l -> f x = true) -> filter f l = l.
Proof.
  induction l as [|x l IH]; intros H; cbn.
  - reflexivity.
  - rewrite (H x (or_introl eq_refl)), IH; [reflexivity|].
    intros y Hy. apply H. now right.
Qed.

Lemma count_app a l1 l2 : count a (l1 ++ l2) = (count a l1 + count a l2)%nat.
Proof. unfold count. now rewrite filter_app, length_app. Qed.

(** A click that finds only timestamps of its own window prunes nothing. *)
Lemma handleClick_in_window now s :
  (forall ts, In ts (clickTimestamps s) -> now - ts < TRIPLE_CLICK_WINDOW) ->
  handleClick now s =
  if (2 <=? List.length (clickTimestamps s))%nat
  then mkSurface [] (timeouts s) (calls s ++ [(now, OnReset)])
  else mkSurface (clickTimestamps s ++ [now])
                 (timeouts s ++ [now + TRIPLE_CLICK_WINDOW]) (calls s).
Proof.
  intros H. unfold handleClick.
  rewrite filter_all.
  - rewrite length_app. cbn [List.length].
    replace (List.length (clickTimestamps s) + 1)%nat
      with (S (List.length (clickTimestamps s))) by lia.
    reflexivity.
  - intros x Hx. apply Z.ltb_lt. apply in_app_or in Hx as [Hx | [<- | []]].
    + now apply H.
    + unfold TRIPLE_CLICK_WINDOW. lia.
Qed.

Lemma clickAll_cons c cs s : clickAll (c :: cs) s = clickAll cs (handleClick c s).
Proof. reflexivity. Qed.

Lemma clickAll_app cs1 cs2 s :
  clickAll (cs1 ++ cs2) s = clickAll cs2 (clickAll cs1 s).
Proof. unfold clickAll. apply fold_left_app. Qed.

(** The clicks of a burst are counted in threes: every third one calls
    [onReset] and empties the buffer, the others leave a timeout behind. *)
Lemma clickAll_burst cs : forall s,
  (forall ts c, In ts (clickTimestamps s) -> In c cs ->
                c - ts < TRIPLE_CLICK_WINDOW) ->
  burst cs ->
  (List.length (clickTimestamps s) < 3)%nat ->
  (3 * count OnReset (calls (clickAll cs s))
     + List.length (clickTimestamps (clickAll cs s)) =
   3 * count OnReset (calls s) + List.length (clickTimestamps s)
     + List.length cs)%nat /\
  (List.length (clickTimestamps (clickAll cs s)) < 3)%nat /\
  count OnToggle (calls (clickAll cs s)) = count OnToggle (calls s) /\
  (List.length (timeouts (clickAll cs s)) + count OnReset (calls (clickAll cs s)) =
   List.length (timeouts s) + count OnReset (calls s) + List.length cs)%nat.
Proof.
  induction cs as [|c cs IH]; intros s Hw Hb Hl.
  - cbn. lia.
  - rewrite clickAll_cons.
    assert (Hc : handleClick c s =
                 if (2 <=? List.length (clickTimestamps s))%nat
                 then mkSurface [] (timeouts s) (calls s ++ [(c, OnReset)])
                 else mkSurface (clickTimestamps s ++ [c])
                        (timeouts s ++ [c + TRIPLE_CLICK_WINDOW]) (calls s)).
    { apply handleClick_in_window. intros ts Hts. apply (Hw ts c Hts).
      now left. }
    assert (Hb' : burst cs).
    { intros a b Ha Hb0. apply Hb; now right. }
    destruct (Nat.leb_spec 2 (List.length (clickTimestamps s))) as [H2 | H2];
      rewrite Hc.
    + destruct (IH (mkSurface [] (timeouts s) (calls s ++ [(c, OnReset)])))
        as (I1 & I2 & I3 & I4); cbn [clickTimestamps timeouts calls] in *.
      * intros ts c' [].
      * exact Hb'.
      * cbn. lia.
      * rewrite count_app in I1, I3, I4. cbn in I1, I3, I4. cbn [List.length].
        repeat split; lia.
    + destruct (IH (mkSurface (clickTimestamps s ++ [c])
                      (timeouts s ++ [c + TRIPLE_CLICK_WINDOW]) (calls s)))
        as (I1 & I2 & I3 & I4); cbn [clickTimestamps timeouts calls] in *.
      * intros ts c' Hts Hc'. apply in_app_or in Hts as [Hts | [<- | []]].
        -- apply (Hw ts c' Hts). now right.
        -- apply Hb; [now left | now right].
      * exact Hb'.
      * rewrite length_app. cbn. lia.
      * rewrite length_app in I1, I4. cbn [List.length] in *.
        repeat split; lia.
Qed.

Lemma handleClick_timeouts now s d :
  In d (timeouts (handleClick now s)) ->
  In d (timeouts s) \/ d = now + TRIPLE_CLICK_WINDOW.
Proof.
  unfold handleClick.
  destruct (3 <=? _)%nat; cbn [timeouts]; intros H.
  - now left.
  - apply in_app_or in H as [H | [<- | []]]; auto.
Qed.

(** Before a click at time [T], while every pending timeout is due after
    [T], the history consists of clicks only. *)
Lemma quiet_prefix pre : forall t0 s s1 T,
  run t0 pre s = Some s1 ->
  (forall e, In e pre -> fst e <= T) ->
  (forall d, In d (timeouts s) -> T < d) ->
  (forall c, In c (clicks pre) -> T < c + TRIPLE_CLICK_WINDOW) ->
  s1 = clickAll (clicks pre) s /\ (forall d, In d (timeouts s1) -> T < d).
Proof.
  induction pre as [|[now [|k]] pre IH]; intros t0 s s1 T Hrun Ht Hd Hc.
  - cbn in Hrun. injection Hrun as <-. now split.
  - cbn in Hrun. destruct (t0 <=? now); [|discriminate].
    cbn [clicks]. rewrite clickAll_cons.
    apply (IH now (handleClick now s) s1 T Hrun).
    + intros e He. apply Ht. now right.
    + intros d Hdd. apply handleClick_timeouts in Hdd as [Hdd | ->].
      * now apply Hd.
      * apply Hc. now left.
    + intros c Hcc. apply Hc. now right.
  - exfalso. cbn in Hrun. destruct (t0 <=? now); [|discriminate].
    destruct (nth_error (timeouts s) k) as [due|] eqn:E; [|discriminate].
    destruct (Z.leb_spec due now); [|discriminate].
    apply nth_error_In in E. apply Hd in E.
    specialize (Ht (now, Expire k) (or_introl eq_refl)). cbn in Ht. lia.
Qed.

(** *** Timeouts running after the last click *)

Lemma deferredCheck_pending now s :
  clickTimestamps s <> [] ->
  (List.length (clickTimestamps s) < 3)%nat ->
  deferredCheck now s = mkSurface [] (timeouts s) (calls s ++ [(now, OnToggle)]).
Proof.
  intros Hne Hl. unfold deferredCheck.
  destruct (clickTimestamps s) as [|a [|b [|c l]]]; cbn in *;
    try reflexivity; try congruence; lia.
Qed.

(** With an empty buffer the timeouts that run change nothing but the list
    of pending timeouts. *)
Lemma expire_idle post : forall t0 ts cs s',
  run t0 post (mkSurface [] ts cs) = Some s' ->
  clicks post = [] ->
  clickTimestamps s' = [] /\ calls s' = cs /\
  (List.length (timeouts s') + List.length post = List.length ts)%nat.
Proof.
  induction post as [|[now [|k]] post IH]; intros t0 ts cs s' Hrun Hc.
  - cbn in Hrun. injection Hrun as <-. cbn. auto.
  - discriminate.
  - cbn in Hrun. destruct (t0 <=? now); [|discriminate].
    destruct (nth_error ts k) as [due|] eqn:E; [|discriminate].
    destruct (due <=? now); [|discriminate].
    destruct (IH _ _ _ _ Hrun Hc) as (I1 & I2 & I3).
    apply removeAt_length in E. cbn [List.length]. repeat split; auto; lia.
Qed.

(** With one or two timestamps in the buffer, the first timeout that runs
    calls [onToggle], no earlier than it is due, and the others do
    nothing. *)
Lemma expire_pending post : forall t0 s s',
  run t0 post s = Some s' ->
  clicks post = [] ->
  clickTimestamps s <> [] ->
  (List.length (clickTimestamps s) < 3)%nat ->
  (List.length (timeouts s') + List.length post = List.length (timeouts s))%nat /\
  (post = [] -> s' = s) /\
  (post <> [] ->
   clickTimestamps s' = [] /\
   exists t d, In d (timeouts s) /\ d <= t /\
               calls s' = calls s ++ [(t, OnToggle)]).
Proof.
  intros t0 s s' Hrun Hc Hne Hl.
  destruct post as [|[now [|k]] post].
  - cbn in Hrun. injection Hrun as <-. cbn. repeat split; auto; congruence.
  - discriminate.
  - cbn in Hrun. destruct (t0 <=? now); [|discriminate].
    destruct (nth_error (timeouts s) k) as [due|] eqn:E; [|discriminate].
    destruct (Z.leb_spec due now); [|discriminate].
    rewrite deferredCheck_pending in Hrun by assumption.
    cbn [clickTimestamps timeouts calls] in Hrun.
    destruct (expire_idle _ _ _ _ _ Hrun Hc) as (I1 & I2 & I3).
    apply removeAt_length in E as El. cbn [List.length].
    split; [lia|]. split; [discriminate|]. intros _. split; [exact I1|].
    exists now, due. split; [now apply nth_error_In in E|]. split; [lia|].
    exact I2.
Qed.

(** *** The classification *)

Lemma clicks_In tr c : In c (clicks tr) -> In (c, Click) tr.
Proof.
  induction tr as [|[now [|k]] tr IH]; cbn; auto.
  intros [-> | H]; auto.
Qed.

(** A history whose clicks all fall within the window that ends at its last
    click [T]: no timeout runs before [T], and what follows [T] are
    timeouts only. *)
Lemma burst_then_timeouts t0 tr s' cs T :
  run t0 tr mount = Some s' ->
  clicks tr = cs ++ [T] ->
  (forall c, In c cs -> T - c < TRIPLE_CLICK_WINDOW) ->
  (forall c, In c cs -> c <= T) /\
  exists post,
    clicks post = [] /\ run T post (clickAll (cs ++ [T]) mount) = Some s'.
Proof.
  intros Hrun Ecs Hw.
  destruct (clicks_split tr cs T Ecs) as (pre & post & -> & Epre & Epost).
  assert (Hbefore : forall e, In e pre -> fst e <= T)
    by (exact (run_before _ _ _ _ _ _ _ Hrun)).
  split.
  { intros c Hc. rewrite <- Epre in Hc.
    exact (Hbefore _ (clicks_In _ _ Hc)). }
  exists post. split; [exact Epost|].
  rewrite run_split in Hrun.
  destruct (run t0 pre mount) as [s1|] eqn:Hpre; [|discriminate].
  destruct (quiet_prefix pre t0 mount s1 T Hpre Hbefore) as (-> & Hdue).
  { intros d []. }
  { intros c Hc. rewrite Epre in Hc. specialize (Hw c Hc). lia. }
  rewrite Epre in Hrun. cbn [run] in Hrun.
  destruct (lastTime t0 pre <=? T); [|discriminate].
  cbn [step] in Hrun. rewrite clickAll_app. exact Hrun.
Qed.

Lemma burst_window cs T :
  burst (cs ++ [T]) -> forall c, In c cs -> T - c < TRIPLE_CLICK_WINDOW.
Proof.
  intros Hb c Hc. apply Hb; apply in_or_app; [now left | right; now left].
Qed.

(** After all the timeouts of a burst of [n] clicks have run, [onReset] has
    been called [n / 3] times and [onToggle] once, unless [n] is a multiple
    of 3. *)
Lemma burst_classified t0 tr s' :
  run t0 tr mount = Some s' ->
  burst (clicks tr) ->
  timeouts s' = [] ->
  count OnReset (calls s') = (List.length (clicks tr) / 3)%nat /\
  count OnToggle (calls s') =
    (if (List.length (clicks tr) mod 3 =? 0)%nat then 0 else 1)%nat.
Proof.
  intros Hrun Hb Hq.
  destruct (last_cases (clicks tr)) as [Ecs | (cs & T & Ecs)].
  { destruct (expire_idle tr t0 [] [] s' Hrun Ecs) as (_ & -> & _).
    rewrite Ecs. split; reflexivity. }
  rewrite Ecs in *.
  destruct (burst_then_timeouts t0 tr s' cs T Hrun Ecs (burst_window cs T Hb))
    as (_ & post & Epost & Hpost).
  destruct (clickAll_burst (cs ++ [T]) mount) as (C1 & C2 & C3 & C4).
  { intros ts c []. }
  { exact Hb. }
  { cbn. lia. }
  cbn [mount clickTimestamps timeouts calls count filter List.length] in C1, C3, C4.
  set (n := List.length (cs ++ [T])) in *.
  set (s2 := clickAll (cs ++ [T]) mount) in *.
  assert (Hdiv : (count OnReset (calls s2) = n / 3 /\
                  List.length (clickTimestamps s2) = n mod 3)%nat).
  { pose proof (Nat.div_mod_eq n 3). pose proof (Nat.mod_upper_bound n 3).
    assert (count OnReset (calls s2) = n / 3)%nat by nia. lia. }
  destruct Hdiv as [Hr Hm].
  destruct (clickTimestamps s2) as [|a buf] eqn:Ebuf.
  - destruct s2 as [b2 t2 c2]. cbn in Ebuf. subst b2.
    destruct (expire_idle post T t2 c2 s' Hpost Epost) as (_ & -> & _).
    cbn [calls List.length] in *. rewrite <- Hm. cbn. auto.
  - destruct (expire_pending post T s2 s' Hpost Epost) as (E1 & E2 & E3).
    { rewrite Ebuf. discriminate. }
    { rewrite Ebuf. exact C2. }
    assert (Hne : post <> []).
    { intros ->. rewrite Hq in E1. cbn in E1.
      assert (n >= 1)%nat by (subst n; rewrite length_app; cbn; lia).
      pose proof (Nat.div_mod_eq n 3). lia. }
    destruct (E3 Hne) as (_ & t & d & _ & _ & Ecalls).
    rewrite Ecalls, !count_app, Hr, C3. cbn [List.length] in Hm.
    rewrite <- Hm. cbn. split; lia.
Qed.

Lemma clickAll_two t1 t2 :
  t2 - t1 < TRIPLE_CLICK_WINDOW ->
  clickAll [t1; t2] mount =
  mkSurface [t1; t2]
            [t1 + TRIPLE_CLICK_WINDOW; t2 + TRIPLE_CLICK_WINDOW] [].
Proof.
  intros H. unfold clickAll. cbn [fold_left].
  rewrite (handleClick_in_window t1 mount) by (intros ts []).
  cbn. rewrite handleClick_in_window; [reflexivity|].
  cbn. intros ts [<- | []]. exact H.
Qed.

Lemma clickAll_three t1 t2 t3 :
  burst [t1; t2; t3] ->
  clickAll [t1; t2; t3] mount =
  mkSurface [] [t1 + TRIPLE_CLICK_WINDOW; t2 + TRIPLE_CLICK_WINDOW]
            [(t3, OnReset)].
Proof.
  intros Hb.
  change [t1; t2; t3] with ([t1; t2] ++ [t3]).
  rewrite clickAll_app, clickAll_two by (apply Hb; cbn; auto).
  unfold clickAll. cbn [fold_left].
  rewrite handleClick_in_window; [reflexivity|].
  cbn. intros ts [<- | [<- | []]]; apply Hb; cbn; auto.
Qed.

Ltac burst_by_cases :=
  unfold burst, TRIPLE_CLICK_WINDOW; cbn; intros a b Ha Hb;
  repeat match goal with
         | H : _ \/ _ |- _ => destruct H
         | H : False |- _ => destruct H
         end;
  subst; lia.

(** C1, as stated, fails on a burst of more than three clicks.  Four clicks
    within one window, followed by their timeouts: the third click calls
    [onReset], the fourth starts a new group, and the first timeout to run
    calls [onToggle].  Six clicks within one window call [onReset] twice. *)
Lemma larger_burst_counterexample :
  burst (clicks fourClicks) /\
  run 0 fourClicks mount =
    Some (mkSurface [] [] [(200, OnReset); (500, OnToggle)]) /\
  burst (clicks sixClicks) /\
  run 0 sixClicks mount =
    Some (mkSurface [] [] [(200, OnReset); (400, OnReset)]) /\
  ~ (forall t0 tr s',
       run t0 tr mount = Some s' ->
       burst (clicks tr) -> (3 <= List.length (clicks tr))%nat ->
       timeouts s' = [] ->
       count OnReset (calls s') = 1%nat /\ count OnToggle (calls s') = 0%nat).
Proof.
  assert (B4 : burst (clicks fourClicks)) by burst_by_cases.
  assert (B6 : burst (clicks sixClicks)) by burst_by_cases.
  repeat split; try assumption; try reflexivity.
  intros H.
  destruct (H 0 fourClicks _ eq_refl B4) as [_ H0]; cbn; try lia; try reflexivity.
  discriminate H0.
Qed.

(** C1, amended: a burst of exactly three clicks within the detection
    window, met with an empty buffer and no timeout pending, calls [onReset]
    exactly once, at the third click, and never [onToggle], whatever
    timeouts run afterwards.  A burst of any size is consumed three clicks
    at a time: once all its timeouts have run, [n] clicks have called
    [onReset] [n / 3] times, and [onToggle] once unless [n] is a multiple
    of 3. *)
Theorem triple_click_resets_once (t0 : Z) (tr : list Event) (s' : Surface) :
  run t0 tr mount = Some s' ->
  burst (clicks tr) ->
  (forall t1 t2 t3,
     clicks tr = [t1; t2; t3] ->
     calls s' = [(t3, OnReset)] /\
     count OnReset (calls s') = 1%nat /\ count OnToggle (calls s') = 0%nat) /\
  (timeouts s' = [] ->
   count OnReset (calls s') = (List.length (clicks tr) / 3)%nat /\
   count OnToggle (calls s') =
     (if (List.length (clicks tr) mod 3 =? 0)%nat then 0 else 1)%nat).
Proof.
  intros Hrun Hb. split.
  - intros t1 t2 t3 E. rewrite E in Hb.
    destruct (burst_then_timeouts t0 tr s' [t1; t2] t3 Hrun E)
      as (_ & post & Epost & Hpost).
    { apply (burst_window [t1; t2] t3 Hb). }
    change ([t1; t2] ++ [t3]) with [t1; t2; t3] in Hpost.
    rewrite (clickAll_three t1 t2 t3 Hb) in Hpost.
    destruct (expire_idle post t3 _ _ s' Hpost Epost) as (_ & -> & _).
    repeat split.
  - intros Hq. now apply (burst_classified t0).
Qed.

Lemma triple_click_resets_once_witness :
  run 0 threeClicks mount = Some (mkSurface [] [] [(200, OnReset)]) /\
  calls (mkSurface [] [] [(200, OnReset)]) = [(200, OnReset)] /\
  count OnReset (calls (mkSurface [] [] [(200, OnReset)])) = 1%nat /\
  count OnToggle (calls (mkSurface [] [] [(200, OnReset)])) = 0%nat.
Proof.
  split; [reflexivity|].
  destruct (triple_click_resets_once 0 threeClicks
              (mkSurface [] [] [(200, OnReset)])) as [H _].
  - reflexivity.
  - burst_by_cases.
  - exact (H 0 100 200 eq_refl).
Defined.

(** C6: two clicks within the detection window and no third one, met with
    an empty buffer and no timeout pending: [onToggle] is called exactly
    once, no earlier than one full window after the first click, and
    [onReset] is never called.  Until a timeout has run nothing has been
    called. *)
Theorem double_click_toggles_once
    (t0 : Z) (tr : list Event) (s' : Surface) (t1 t2 : Z) :
  run t0 tr mount = Some s' ->
  clicks tr = [t1; t2] ->
  t2 - t1 < TRIPLE_CLICK_WINDOW ->
  (calls s' = [] \/
   exists t, t1 + TRIPLE_CLICK_WINDOW <= t /\ calls s' = [(t, OnToggle)]) /\
  (timeouts s' = [] ->
   (exists t, t1 + TRIPLE_CLICK_WINDOW <= t /\ calls s' = [(t, OnToggle)]) /\
   count OnToggle (calls s') = 1%nat /\ count OnReset (calls s') = 0%nat).
Proof.
  intros Hrun E Hw.
  destruct (burst_then_timeouts t0 tr s' [t1] t2 Hrun E)
    as (Hle & post & Epost & Hpost).
  { intros c [<- | []]. exact Hw. }
  specialize (Hle t1 (or_introl eq_refl)).
  change ([t1] ++ [t2]) with [t1; t2] in Hpost.
  rewrite (clickAll_two t1 t2 Hw) in Hpost.
  destruct (expire_pending post t2 _ s' Hpost Epost) as (E1 & E2 & E3);
    cbn [clickTimestamps timeouts calls List.length] in *;
    [discriminate | lia |].
  destruct post as [|e post].
  - rewrite (E2 eq_refl). cbn. split; [now left|]. discriminate.
  - destruct E3 as (_ & t & d & Hd & Hdt & Ecalls); [discriminate|].
    assert (Ht : t1 + TRIPLE_CLICK_WINDOW <= t).
    { destruct Hd as [<- | [<- | []]]; lia. }
    cbn in Ecalls. rewrite Ecalls.
    split; [right; now exists t|].
    intros _. split; [now exists t|]. split; reflexivity.
Qed.

Lemma double_click_toggles_once_witness :
  run 0 twoClicks mount = Some (mkSurface [] [] [(500, OnToggle)]) /\
  count OnToggle (calls (mkSurface [] [] [(500, OnToggle)])) = 1%nat /\
  count OnReset (calls (mkSurface [] [] [(500, OnToggle)])) = 0%nat.
Proof.
  split; [reflexivity|].
  destruct (double_click_toggles_once 0 twoClicks
              (mkSurface [] [] [(500, OnToggle)]) 0 100) as [_ H].
  - reflexivity.
  - reflexivity.
  - reflexivity.
  - apply H. reflexivity.
Defined.

(** *** A single click *)

(** X15: one click, met with an empty buffer and no timeout pending, and
    no other click: [onToggle] is called exactly once, no earlier than one
    full window after the click, and [onReset] is never called.  Until the
    timeout has run nothing has been called. *)
Theorem single_click_toggles_once
    (t0 : Z) (tr : list Event) (s' : Surface) (t1 : Z) :
  run t0 tr mount = Some s' ->
  clicks tr = [t1] ->
  (calls s' = [] \/
   exists t, t1 + TRIPLE_CLICK_WINDOW <= t /\ calls s' = [(t, OnToggle)]) /\
  (timeouts s' = [] ->
   exists t, t1 + TRIPLE_CLICK_WINDOW <= t /\ calls s' = [(t, OnToggle)]).
Proof.
  intros Hrun E.
  destruct (burst_then_timeouts t0 tr s' [] t1 Hrun E)
    as (_ & post & Epost & Hpost).
  { intros c []. }
  cbn [app] in Hpost. unfold clickAll in Hpost. cbn [fold_left] in Hpost.
  rewrite (handleClick_in_window t1 mount) in Hpost by (intros ts []).
  cbn [mount clickTimestamps timeouts calls List.length Nat.leb app] in Hpost.
  destruct (expire_pending post t1 _ s' Hpost Epost) as (E1 & E2 & E3);
    cbn [clickTimestamps timeouts calls List.length] in *;
    [discriminate | lia |].
  destruct post as [|e post].
  - rewrite (E2 eq_refl). cbn. split; [now left|]. discriminate.
  - destruct E3 as (_ & t & d & Hd & Hdt & Ecalls); [discriminate|].
    assert (Ht : t1 + TRIPLE_CLICK_WINDOW <= t).
    { destruct Hd as [<- | []]. lia. }
    cbn in Ecalls. rewrite Ecalls.
    split; [right; now exists t | intros _; now exists t].
Qed.

Lemma single_click_toggles_once_witness :
  run 0 [(0, Click); (500, Expire 0)] mount =
    Some (mkSurface [] [] [(500, OnToggle)]) /\
  exists t, 0 + TRIPLE_CLICK_WINDOW <= t /\
            calls (mkSurface [] [] [(500, OnToggle)]) = [(t, OnToggle)].
Proof.
  split; [reflexivity|].
  destruct (single_click_toggles_once 0 [(0, Click); (500, Expire 0)]
              (mkSurface [] [] [(500, OnToggle)]) 0) as [_ H].
  - reflexivity.
  - reflexivity.
  - apply H. reflexivity.
Defined.

(** *** Every history *)

Lemma removeAt_In {A} (l : list A) : forall k x,
  In x (removeAt k l) -> In x l.
Proof.
  induction l as [|y l IH]; intros [|k] x H; cbn in *; auto.
  destruct H as [-> | H]; eauto.
Qed.

Lemma filter_length_le {A} (f : A -> bool) (l : list A) :
  (List.length (filter f l) <= List.length l)%nat.
Proof.
  induction l as [|x l IH]; cbn; [lia|]. destruct (f x); cbn; lia.
Qed.

Lemma filter_filter_length {A} (f g : A -> bool) (l : list A) :
  (List.length (filter f (filter g l)) <= List.length (filter f l))%nat.
Proof.
  induction l as [|x l IH]; cbn; [lia|].
  destruct (g x), (f x) eqn:Ef; cbn; rewrite ?Ef; cbn; lia.
Qed.

(** What [handleClick] keeps: the timestamps of the window that ends now,
    the click itself last. *)
Lemma handleClick_kept now s :
  filter (fun timestamp => now - timestamp <? TRIPLE_CLICK_WINDOW)
         (clickTimestamps s ++ [now]) =
  inWindow now (clickTimestamps s) ++ [now].
Proof.
  rewrite filter_app. cbn [filter].
  replace (now - now <? TRIPLE_CLICK_WINDOW) with true; [reflexivity|].
  symmetry. apply Z.ltb_lt. unfold TRIPLE_CLICK_WINDOW. lia.
Qed.

Lemma step_Counted now i s s' n :
  step now i s = Some s' -> Counted n s ->
  Counted (n + List.length (clicks [(now, i)])) s'.
Proof.
  unfold Counted. intros Hstep [Hl Hc]. destruct i as [|k]; cbn in Hstep.
  - injection Hstep as <-. unfold handleClick. rewrite handleClick_kept.
    pose proof (filter_length_le
                  (fun c => now - c <? TRIPLE_CLICK_WINDOW) (clickTimestamps s))
      as Hf.
    fold (inWindow now (clickTimestamps s)) in Hf.
    rewrite length_app. cbn [List.length clicks].
    destruct (Nat.leb_spec 3 (List.length (inWindow now (clickTimestamps s)) + 1));
      cbn [clickTimestamps calls List.length].
    + rewrite !count_app. unfold count in *. cbn. lia.
    + rewrite length_app. unfold count in *. cbn. lia.
  - destruct (nth_error (timeouts s) k) as [due|]; [|discriminate].
    destruct (due <=? now); [|discriminate]. injection Hstep as <-.
    unfold deferredCheck. cbn [clickTimestamps timeouts calls clicks List.length].
    destruct (clickTimestamps s) as [|a [|b [|c l]]];
      cbn [List.length Nat.ltb Nat.leb andb clickTimestamps timeouts calls];
      rewrite ?count_app; unfold count in *; cbn in *; lia.
Qed.

Lemma run_Counted tr : forall t0 s s' n,
  run t0 tr s = Some s' -> Counted n s ->
  Counted (n + List.length (clicks tr)) s'.
Proof.
  induction tr as [|[now i] tr IH]; intros t0 s s' n Hrun HC.
  - cbn in *. injection Hrun as <-. now rewrite Nat.add_0_r.
  - cbn [run] in Hrun. destruct (t0 <=? now); [|discriminate].
    destruct (step now i s) as [s1|] eqn:Hstep; [|discriminate].
    pose proof (step_Counted _ _ _ _ _ Hstep HC) as HC1.
    specialize (IH _ _ _ _ Hrun HC1).
    assert (E : (n + List.length (clicks ((now, i) :: tr)) =
                 n + List.length (clicks [(now, i)]) + List.length (clicks tr))%nat)
      by (destruct i; cbn; lia).
    exact (eq_ind_r (fun k => Counted k s') IH E).
Qed.

(** X16: in every history the click buffer holds at most two timestamps
    between events, and the calls made are paid for by clicks: three clicks
    for each [onReset], at least one for each [onToggle], on top of the
    clicks still in the buffer.  Without a click nothing is ever called. *)
Theorem calls_accounted_by_clicks (t0 : Z) (tr : list Event) (s' : Surface) :
  run t0 tr mount = Some s' ->
  (List.length (clickTimestamps s') <= 2)%nat /\
  (3 * count OnReset (calls s') + count OnToggle (calls s')
     + List.length (clickTimestamps s') <= List.length (clicks tr))%nat.
Proof.
  intros Hrun.
  destruct (run_Counted tr t0 mount s' 0 Hrun) as [H1 H2].
  - unfold Counted. cbn. lia.
  - cbn in H2. lia.
Qed.

Lemma calls_accounted_by_clicks_witness :
  (3 * count OnReset [(200%Z, OnReset); (500%Z, OnToggle)]
   + count OnToggle [(200%Z, OnReset); (500%Z, OnToggle)] + 0 <= 4)%nat.
Proof.
  apply (calls_accounted_by_clicks 0 fourClicks
           (mkSurface [] [] [(200, OnReset); (500, OnToggle)])).
  reflexivity.
Defined.

Lemma step_Sound now i s s' P :
  step now i s = Some s' -> Sound P s -> Sound (P ++ clicks [(now, i)]) s'.
Proof.
  unfold Sound. intros Hstep (Hb & Hd & Ht & Hr).
  destruct i as [|k]; cbn in Hstep.
  - injection Hstep as <-. cbn [clicks]. unfold handleClick.
    rewrite handleClick_kept, length_app. cbn [List.length].
    destruct (Nat.leb_spec 3 (List.length (inWindow now (clickTimestamps s)) + 1));
      cbn [clickTimestamps timeouts calls]; repeat split.
    + intros f. cbn. lia.
    + intros d Hin. destruct (Hd d Hin) as (c & Hc & ->).
      exists c. split; [apply in_or_app; now left | reflexivity].
    + intros t Hin. apply in_app_or in Hin as [Hin | [Hin | []]];
        [|discriminate].
      destruct (Ht t Hin) as (c & Hc & Hle).
      exists c. split; [apply in_or_app; now left | exact Hle].
    + intros t Hin. apply in_app_or in Hin as [Hin | [Hin | []]].
      * destruct (Hr t Hin) as (pre & post & -> & Hw).
        exists pre, (post ++ [now]). split; [|exact Hw].
        now rewrite <- List.app_assoc.
      * injection Hin as ->. exists P, []. split; [reflexivity|].
        specialize (Hb (fun c => t - c <? TRIPLE_CLICK_WINDOW)).
        unfold inWindow in *. lia.
    + intros f.
      rewrite <- handleClick_kept.
      etransitivity; [apply filter_filter_length|].
      rewrite !filter_app, !length_app. specialize (Hb f). lia.
    + intros d Hin. apply in_app_or in Hin as [Hin | [<- | []]].
      * destruct (Hd d Hin) as (c & Hc & ->).
        exists c. split; [apply in_or_app; now left | reflexivity].
      * exists now. split; [apply in_or_app; right; now left | reflexivity].
    + intros t Hin. destruct (Ht t Hin) as (c & Hc & Hle).
      exists c. split; [apply in_or_app; now left | exact Hle].
    + intros t Hin. destruct (Hr t Hin) as (pre & post & -> & Hw).
      exists pre, (post ++ [now]). split; [|exact Hw].
      now rewrite <- List.app_assoc.
  - destruct (nth_error (timeouts s) k) as [due|] eqn:E; [|discriminate].
    destruct (Z.leb_spec due now) as [Hdue|]; [|discriminate].
    injection Hstep as <-. cbn [clicks]. rewrite List.app_nil_r.
    apply nth_error_In in E. destruct (Hd due E) as (c0 & Hc0 & ->).
    unfold deferredCheck. cbn [clickTimestamps timeouts calls].
    destruct ((0 <? List.length (clickTimestamps s))%nat
              && (List.length (clickTimestamps s) <? 3)%nat);
      cbn [clickTimestamps timeouts calls]; repeat split; auto.
    + intros f. cbn. lia.
    + intros d Hin. apply removeAt_In in Hin. auto.
    + intros t Hin. apply in_app_or in Hin as [Hin | [Hin | []]]; auto.
      injection Hin as <-. exists c0. split; [exact Hc0 | lia].
    + intros t Hin. apply in_app_or in Hin as [Hin | [Hin | []]]; auto.
      discriminate.
    + intros d Hin. apply removeAt_In in Hin. auto.
Qed.

Lemma run_Sound tr : forall t0 s s' P,
  run t0 tr s = Some s' -> Sound P s -> Sound (P ++ clicks tr) s'.
Proof.
  induction tr as [|[now i] tr IH]; intros t0 s s' P Hrun HS.
  - cbn in *. injection Hrun as <-. now rewrite List.app_nil_r.
  - cbn [run] in Hrun. destruct (t0 <=? now); [|discriminate].
    destruct (step now i s) as [s1|] eqn:Hstep; [|discriminate].
    pose proof (step_Sound _ _ _ _ _ Hstep HS) as HS1.
    specialize (IH _ _ _ _ Hrun HS1).
    assert (E : P ++ clicks ((now, i) :: tr) =
                (P ++ clicks [(now, i)]) ++ clicks tr)
      by (rewrite <- List.app_assoc; destruct i; reflexivity).
    exact (eq_ind_r (fun Q => Sound Q s') IH E).
Qed.

Lemma mount_Sound : Sound [] mount.
Proof.
  unfold Sound, mount. cbn. repeat split.
  - intros f. lia.
  - intros d [].
  - intros t [].
  - intros t [].
Qed.

(** X17: in every history, [onToggle] is never called at once: each of its
    calls comes at least one full window after some click of the
    history. *)
Theorem toggle_never_immediate
    (t0 : Z) (tr : list Event) (s' : Surface) (t : Z) :
  run t0 tr mount = Some s' ->
  In (t, OnToggle) (calls s') ->
  exists c, In c (clicks tr) /\ c + TRIPLE_CLICK_WINDOW <= t.
Proof.
  intros Hrun Hin.
  destruct (run_Sound tr t0 mount s' [] Hrun mount_Sound) as (_ & _ & Ht & _).
  exact (Ht t Hin).
Qed.

Lemma toggle_never_immediate_witness :
  exists c, In c (clicks twoClicks) /\ c + TRIPLE_CLICK_WINDOW <= 500.
Proof.
  apply (toggle_never_immediate 0 twoClicks
           (mkSurface [] [] [(500, OnToggle)]) 500).
  - reflexivity.
  - now left.
Defined.

(** A history splits at any of its clicks. *)
Lemma clicks_split_at tr : forall pre T post,
  clicks tr = pre ++ T :: post ->
  exists trpre trpost,
    tr = trpre ++ (T, Click) :: trpost /\ clicks trpre = pre.
Proof.
  induction tr as [|[now [|k]] tr IH]; intros pre T post H; cbn in H.
  - now destruct pre.
  - destruct pre as [|c pre]; cbn in H.
    + injection H as -> H. exists [], tr. auto.
    + injection H as -> H. destruct (IH _ _ _ H) as (trpre & trpost & -> & E).
      exists ((c, Click) :: trpre), trpost. cbn. now rewrite E.
  - destruct (IH _ _ _ H) as (trpre & trpost & -> & E).
    exists ((now, Expire k) :: trpre), trpost. auto.
Qed.

(** X18: in every history, [onReset] is only called at a click that has at
    least two earlier clicks within its detection window: without three
    clicks in one window there is no reset. *)
Theorem reset_needs_three_clicks
    (t0 : Z) (tr : list Event) (s' : Surface) (t : Z) :
  run t0 tr mount = Some s' ->
  In (t, OnReset) (calls s') ->
  exists pre post,
    clicks tr = pre ++ t :: post /\
    (forall c, In c pre -> c <= t) /\
    (2 <= List.length (inWindow t pre))%nat.
Proof.
  intros Hrun Hin.
  destruct (run_Sound tr t0 mount s' [] Hrun mount_Sound) as (_ & _ & _ & Hr).
  destruct (Hr t Hin) as (pre & post & E & Hw).
  exists pre, post. split; [exact E|]. split; [|exact Hw].
  cbn [app] in E.
  destruct (clicks_split_at tr pre t post E) as (trpre & trpost & -> & <-).
  intros c Hc. apply clicks_In in Hc.
  exact (run_before _ _ _ _ _ _ _ Hrun _ Hc).
Qed.

Lemma reset_needs_three_clicks_witness :
  exists pre post,
    clicks threeClicks = pre ++ 200 :: post /\
    (forall c, In c pre -> c <= 200) /\
    (2 <= List.length (inWindow 200 pre))%nat.
Proof.
  apply (reset_needs_three_clicks 0 threeClicks
           (mkSurface [] [] [(200, OnReset)]) 200).
  - reflexivity.
  - now left.
Defined.

End ClicksFacts.

(** ** The page *)

Module AppFacts.

Import Timer Clicks.

Section Wired.

Variable onToggle : Z -> Hook -> Hook.

Abbreviation run := (App.run onToggle).
Abbreviation step := (App.step onToggle).









End Wired.


End AppFacts.

(** ** The hook, render by render *)

Module RendersFacts.

Import Timer Renders.

Ltac unfold_render :=
  unfold step, tick, isLive, toggle, start, pause, reset, setDuration,
         stopInterval, clearInterval, setState, current in *;
  cbn [state intervalRef startTimeRef remainingAtStartRef live intervals
       completions remainingMs status initialMs status_eqb negb fst snd
       existsb filter app orb] in *.

Ltac split_zleb :=
  repeat match goal with
         | |- context [?a <=? ?b] => destruct (Z.leb_spec a b)
         | H : context [?a <=? ?b] |- _ => destruct (Z.leb_spec a b)
         end.

Lemma state_eqb_eq (a b : TimerState) : state_eqb a b = true -> a = b.
Proof.
  unfold state_eqb. destruct a as [ra sa ia], b as [rb sb ib]. cbn.
  intros H. apply andb_prop in H as [H H3]. apply andb_prop in H as [H1 H2].
  apply Z.eqb_eq in H1, H3. destruct sa, sb; try discriminate; congruence.
Qed.

Lemma state_eqb_refl (a : TimerState) : state_eqb a a = true.
Proof.
  unfold state_eqb. rewrite !Z.eqb_refl. now destruct (status a).
Qed.

(** What [stopInterval] leaves. *)
Lemma stopInterval_eq h :
  stopInterval h =
  mkHook (state h) None (startTimeRef h) (remainingAtStartRef h)
         (match intervalRef h with
          | Some id => filter (fun k => negb (k =? id)%nat) (live h)
          | None => live h
          end)
         (intervals h) (completions h).
Proof.
  unfold stopInterval, clearInterval.
  destruct h as [s [k|] st ras lv n c]; reflexivity.
Qed.

(** The effects of a completing tick whose function React runs [S n]
    times: [intervalRef] is cleared once, [onComplete] is called each
    time. *)
Lemma completing_effects n : forall h,
  Nat.iter (S n) (fun h => onComplete (stopInterval h)) h =
  mkHook (state h) None (startTimeRef h) (remainingAtStartRef h)
         (live (stopInterval h)) (intervals h) (completions h + S n).
Proof.
  induction n as [|n IH]; intros h.
  - cbn [Nat.iter nat_rect]. rewrite stopInterval_eq. unfold onComplete. cbn.
    now rewrite Nat.add_1_r.
  - change (Nat.iter (S (S n)) (fun h => onComplete (stopInterval h)) h)
      with (onComplete (stopInterval
              (Nat.iter (S n) (fun h => onComplete (stopInterval h)) h))).
    rewrite IH, !stopInterval_eq. unfold onComplete. cbn.
    f_equal. lia.
Qed.

(** The two outcomes of the callback of a live interval. *)
Lemma tick_outcomes id reruns now h :
  isLive id h = true ->
  let newRemaining :=
    Z.max 0 (remainingAtStartRef h - (now - startTimeRef h)) in
  (0 < newRemaining /\
   tick id reruns now h =
     mkHook (mkTimerState newRemaining (status (state h)) (initialMs (state h)))
            (intervalRef h) (startTimeRef h) (remainingAtStartRef h)
            (live h) (intervals h) (completions h)) \/
  (newRemaining = 0 /\
   tick id reruns now h =
     mkHook (mkTimerState 0 completed (initialMs (state h)))
            None (startTimeRef h) (remainingAtStartRef h)
            (live (stopInterval h)) (intervals h)
            (completions h + S reruns)).
Proof.
  intros Hl. cbv zeta. unfold tick. rewrite Hl. unfold intervalCallback.
  destruct (Z.leb_spec (Z.max 0 (remainingAtStartRef h - (now - startTimeRef h))) 0).
  - right. split; [lia|]. rewrite completing_effects. reflexivity.
  - left. split; [lia|]. reflexivity.
Qed.

Lemma tick_dead id reruns now h :
  isLive id h = false -> tick id reruns now h = h.
Proof. intros Hl. unfold tick. now rewrite Hl. Qed.

(** *** Frame properties, for callbacks of any render *)

Lemma start_keeps_initialMs c now h : initialMs (state (start c now h)) = initialMs (state h).
Proof.
  unfold start. destruct (status_eqb (status c) running); [reflexivity|].
  destruct (remainingMs c <=? 0); reflexivity.
Qed.

Lemma pause_keeps_initialMs c h : initialMs (state (pause c h)) = initialMs (state h).
Proof.
  unfold pause. destruct (negb (status_eqb (status c) running)); [reflexivity|].
  rewrite stopInterval_eq. reflexivity.
Qed.

Lemma reset_result h :
  state (reset h) = mkTimerState (initialMs (state h)) idle (initialMs (state h)) /\
  intervalRef (reset h) = None.
Proof. unfold reset. rewrite stopInterval_eq. split; reflexivity. Qed.

Lemma toggle_keeps_initialMs c now h : initialMs (state (toggle c now h)) = initialMs (state h).
Proof.
  unfold toggle. destruct (status c).
  - apply start_keeps_initialMs.
  - apply pause_keeps_initialMs.
  - apply start_keeps_initialMs.
  - now rewrite (proj1 (reset_result h)).
Qed.

Lemma tick_keeps_initialMs id reruns now h :
  initialMs (state (tick id reruns now h)) = initialMs (state h).
Proof.
  destruct (isLive id h) eqn:Hl.
  - destruct (tick_outcomes id reruns now h Hl) as [[_ E] | [_ E]];
      rewrite E; reflexivity.
  - now rewrite tick_dead.
Qed.

Lemma setDuration_result ms h :
  state (setDuration ms h) =
    mkTimerState (Z.max MIN_DURATION_MS ms) idle (Z.max MIN_DURATION_MS ms) /\
  intervalRef (setDuration ms h) = None.
Proof. unfold setDuration. rewrite stopInterval_eq. split; reflexivity. Qed.

(** *** Calls made through the current render *)

Ltac finish :=
  repeat match goal with
         | |- _ /\ _ => split
         | |- _ <-> _ => split
         end;
  intros; try discriminate; try congruence; try lia; auto.

Ltac by_cases h :=
  destruct h as [[r s i] [k|] st ras lv n c];
  match goal with H : live _ = _ |- _ => cbn in H; subst lv end;
  destruct s; unfold_render; split_zleb; unfold_render;
  rewrite ?Nat.eqb_refl; cbn [negb filter];
  try (exfalso; intuition congruence);
  finish; intuition (try congruence; try lia).

Lemma useTimer_Steady d t : Steady t (useTimer d).
Proof.
  unfold Steady, oneHandle, useTimer. cbn.
  repeat split; try lia; try discriminate; try congruence; auto.
Qed.

Lemma step_Steady t now op h :
  Steady t h -> t <= now -> current op h = true -> Steady now (step (now, op) h).
Proof.
  unfold Steady, oneHandle. intros (H0 & H1 & H2 & H3 & H4 & H5 & H6) Ht Hc.
  destruct op as [cr|cr|cr| |ms|id reruns].
  - apply state_eqb_eq in Hc. subst cr. by_cases h.
  - apply state_eqb_eq in Hc. subst cr. by_cases h.
  - apply state_eqb_eq in Hc. subst cr. by_cases h.
  - by_cases h.
  - unfold MIN_DURATION_MS. by_cases h.
  - cbn [step]. destruct (isLive id h) eqn:Hl.
    + assert (Hk : intervalRef h <> None).
      { intros E. rewrite E in H0. unfold isLive in Hl. rewrite H0 in Hl.
        discriminate. }
      destruct (H5 Hk) as (Hras & Hst & Hmax).
      destruct (tick_outcomes id reruns now h Hl) as [[Hn E] | [Hn E]];
        rewrite E; cbn [state intervalRef startTimeRef remainingAtStartRef live
                        remainingMs status initialMs].
      * finish; intuition (try congruence; try lia).
      * rewrite stopInterval_eq. cbn [live]. rewrite H0.
        destruct (intervalRef h) as [k|]; [|congruence].
        cbn [filter]. rewrite Nat.eqb_refl. cbn [negb].
        finish; intuition (try congruence; try lia).
    + rewrite tick_dead by exact Hl.
      finish; intuition (try congruence; try lia).
Qed.

Lemma run_Steady tr : forall t0 h,
  chronological t0 tr = true -> currentRenders tr h = true ->
  Steady t0 h -> Steady (lastTime t0 tr) (run tr h).
Proof.
  induction tr as [|[now op] tr IH]; intros t0 h Hc Hf Hh; cbn in *.
  - exact Hh.
  - apply andb_prop in Hc as [Hle Hc]. apply Z.leb_le in Hle.
    apply andb_prop in Hf as [Hop Hf].
    apply (IH now); [exact Hc | exact Hf |].
    now apply (step_Steady t0).
Qed.

Lemma useTimer_Tidy d : Tidy (useTimer d).
Proof.
  unfold Tidy, oneHandle, useTimer. cbn.
  repeat split; try lia; try discriminate; try congruence; auto.
Qed.

Lemma step_Tidy now op h :
  Tidy h -> current op h = true -> Tidy (step (now, op) h).
Proof.
  unfold Tidy, oneHandle. intros (H0 & H4 & H3 & H6) Hc.
  destruct op as [cr|cr|cr| |ms|id reruns].
  - apply state_eqb_eq in Hc. subst cr. by_cases h.
  - apply state_eqb_eq in Hc. subst cr. by_cases h.
  - apply state_eqb_eq in Hc. subst cr. by_cases h.
  - by_cases h.
  - unfold MIN_DURATION_MS. by_cases h.
  - cbn [step]. destruct (isLive id h) eqn:Hl.
    + assert (Hk : intervalRef h <> None).
      { intros E. rewrite E in H0. unfold isLive in Hl. rewrite H0 in Hl.
        discriminate. }
      destruct (tick_outcomes id reruns now h Hl) as [[Hn E] | [Hn E]];
        rewrite E; cbn [state intervalRef startTimeRef remainingAtStartRef live
                        remainingMs status initialMs].
      * finish; intuition (try congruence; try lia).
      * rewrite stopInterval_eq. cbn [live]. rewrite H0.
        destruct (intervalRef h) as [k|]; [|congruence].
        cbn [filter]. rewrite Nat.eqb_refl. cbn [negb].
        finish; intuition (try congruence; try lia).
    + rewrite tick_dead by exact Hl.
      finish; intuition (try congruence; try lia).
Qed.

Lemma run_Tidy tr : forall h,
  currentRenders tr h = true -> Tidy h -> Tidy (run tr h).
Proof.
  induction tr as [|[now op] tr IH]; intros h Hf Hh; cbn in *.
  - exact Hh.
  - apply andb_prop in Hf as [Hop Hf].
    apply IH; [exact Hf|]. now apply step_Tidy.
Qed.

(** *** The progress ratio *)










(** Created with a positive duration, the hook keeps the invariant of the
    data model along every history whose clock readings never decrease and
    whose calls are made through the current render. *)
Lemma Invariant_while_current d t0 tr :
  0 < d -> chronological t0 tr = true ->
  currentRenders tr (useTimer (Some d)) = true ->
  Invariant (state (run tr (useTimer (Some d)))).
Proof.
  intros Hd Hc Hf.
  pose proof (run_Steady tr t0 _ Hc Hf (useTimer_Steady (Some d) t0))
    as (_ & H1 & H2 & H3 & _ & _ & H6).
  assert (Hp : 0 < initialMs (state (run tr (useTimer (Some d))))).
  { destruct (Z.ltb_spec 0 (initialMs (state (run tr (useTimer (Some d))))))
      as [Hp | Hp]; [exact Hp|].
    exfalso. clear H1 H2 H3 H6 Hc Hf.
    assert (G : forall tr h, 0 < initialMs (state h) ->
                             0 < initialMs (state (run tr h))).
    { clear. induction tr as [|[now op] tr IH]; intros h H; cbn; [exact H|].
      apply IH. destruct op; cbn [step].
      - now rewrite start_keeps_initialMs.
      - now rewrite pause_keeps_initialMs.
      - now rewrite toggle_keeps_initialMs.
      - now rewrite (proj1 (reset_result h)).
      - rewrite (proj1 (setDuration_result ms h)). cbn.
        unfold MIN_DURATION_MS. lia.
      - now rewrite tick_keeps_initialMs. }
    specialize (G tr (useTimer (Some d)) Hd). lia. }
  unfold Invariant. repeat split; auto.
Qed.

(** *** One interval at a time *)

(** X7: along every history in which [start], [pause] and [toggle] are
    called through the render that is current, the only interval that is
    live is the one whose handle is in [intervalRef], and there is one
    exactly while the status is [running]. *)
Theorem one_interval_while_current (d : option Z) (tr : list Event) :
  currentRenders tr (useTimer d) = true ->
  live (run tr (useTimer d)) =
    match intervalRef (run tr (useTimer d)) with
    | Some id => [id]
    | None => []
    end /\
  (status (state (run tr (useTimer d))) = running <->
   intervalRef (run tr (useTimer d)) <> None).
Proof.
  intros Hf.
  destruct (run_Tidy tr _ Hf (useTimer_Tidy d)) as (H0 & H4 & _).
  split; assumption.
Qed.

Lemma one_interval_while_current_witness :
  live (run begun (useTimer (Some 1000))) = [0%nat].
Proof.
  destruct (one_interval_while_current (Some 1000) begun) as [H _].
  - reflexivity.
  - exact H.
Defined.

Lemma idle_has_no_live_interval h :
  Tidy h -> status (state h) <> running -> live h = [].
Proof.
  intros (H0 & H4 & _) Hs. unfold oneHandle in H0.
  destruct (intervalRef h) as [k|]; [|exact H0].
  exfalso. apply Hs, H4. discriminate.
Qed.

(** X8: after a history in which [start], [pause] and [toggle] were called
    through the current render, a timer that is not [running] has no live
    interval: no callback of any handle, replayed any number of times,
    changes the hook. *)
Theorem ticks_idle_while_current
    (d : option Z) (tr : list Event) (id reruns : nat) (now : Z) :
  currentRenders tr (useTimer d) = true ->
  status (state (run tr (useTimer d))) <> running ->
  tick id reruns now (run tr (useTimer d)) = run tr (useTimer d).
Proof.
  intros Hf Hs. apply tick_dead. unfold isLive.
  rewrite (idle_has_no_live_interval _ (run_Tidy tr _ Hf (useTimer_Tidy d)) Hs).
  reflexivity.
Qed.

Lemma ticks_idle_while_current_witness :
  tick 0 0 2000
       (run [(0, OpStart oneSecond); (500, OpPause (mkTimerState 1000 running 1000))]
            (useTimer (Some 1000))) =
  run [(0, OpStart oneSecond); (500, OpPause (mkTimerState 1000 running 1000))]
      (useTimer (Some 1000)).
Proof.
  apply (ticks_idle_while_current (Some 1000)
           [(0, OpStart oneSecond); (500, OpPause (mkTimerState 1000 running 1000))]).
  - reflexivity.
  - discriminate.
Defined.

Lemma completed_Tidy h :
  Tidy h -> status (state h) = completed ->
  remainingMs (state h) = 0 /\ 0 < initialMs (state h) /\ live h = [].
Proof.
  intros HT Hs. pose proof HT as (H0 & H4 & H3 & H6).
  split; [auto|]. split.
  - destruct (Z.ltb_spec 0 (initialMs (state h))); [assumption|].
    destruct (H6 ltac:(lia)) as [E _]. congruence.
  - apply idle_has_no_live_interval; [exact HT | congruence].
Qed.

(** X9: after a history in which [start], [pause] and [toggle] were called
    through the current render, a completed timer has [remainingMs = 0] and
    a positive [initialMs]; the [start] and the [pause] of its render do
    nothing to it, and no interval is left to tick. *)
Theorem completed_inert_while_current
    (d : option Z) (tr : list Event) (id reruns : nat) (now : Z) :
  currentRenders tr (useTimer d) = true ->
  status (state (run tr (useTimer d))) = completed ->
  let h := run tr (useTimer d) in
  remainingMs (state h) = 0 /\
  0 < initialMs (state h) /\
  start (state h) now h = h /\ pause (state h) h = h /\
  tick id reruns now h = h.
Proof.
  intros Hf Hs h.
  destruct (completed_Tidy _ (run_Tidy tr _ Hf (useTimer_Tidy d)) Hs)
    as (Hr & Hi & Hl).
  fold h in Hs, Hr, Hi, Hl.
  split; [exact Hr|]. split; [exact Hi|].
  split.
  { unfold start. rewrite Hs. cbn. rewrite Hr. reflexivity. }
  split.
  { unfold pause. rewrite Hs. reflexivity. }
  apply tick_dead. unfold isLive. now rewrite Hl.
Qed.

Lemma completed_inert_while_current_witness :
  start (state (run ended (useTimer (Some 1000)))) 5000
        (run ended (useTimer (Some 1000))) =
  run ended (useTimer (Some 1000)).
Proof.
  apply (completed_inert_while_current (Some 1000) ended 0%nat 0%nat 5000).
  - reflexivity.
  - reflexivity.
Defined.

(** *** The status machine *)

Lemma start_status c now h :
  status (state (start c now h)) =
  if status_eqb (status c) running then status (state h)
  else if remainingMs c <=? 0 then status (state h) else running.
Proof.
  unfold start. destruct (status_eqb (status c) running); [reflexivity|].
  destruct (remainingMs c <=? 0); reflexivity.
Qed.

Lemma pause_status c h :
  status (state (pause c h)) =
  if status_eqb (status c) running then paused else status (state h).
Proof.
  unfold pause. destruct (status_eqb (status c) running); reflexivity.
Qed.

(** X11: as long as [start], [pause] and [toggle] are called through the
    current render, the status moves only along the edges of the status
    machine: [idle] or [paused] to [running], [running] to [paused] or
    [completed], anything to [idle], or it stays; in particular nothing
    leads from [idle] or [paused] to [completed], nor from [completed] to
    [running] or [paused]. *)
Theorem status_edges_while_current
    (d : option Z) (tr : list Event) (e : Event) :
  currentRenders tr (useTimer d) = true ->
  current (snd e) (run tr (useTimer d)) = true ->
  transition (status (state (run tr (useTimer d))))
             (status (state (step e (run tr (useTimer d))))) = true.
Proof.
  intros Hf Hc.
  pose proof (run_Tidy tr _ Hf (useTimer_Tidy d)) as HT.
  generalize dependent (run tr (useTimer d)). intros h Hc HT.
  destruct e as [now op]. cbn [snd] in Hc.
  pose proof HT as (_ & _ & H3 & _).
  destruct op as [cr|cr|cr| |ms|id reruns]; cbn [step].
  - apply state_eqb_eq in Hc. subst cr. rewrite start_status.
    destruct (status (state h)) eqn:Es; cbn;
      destruct (Z.leb_spec (remainingMs (state h)) 0); try reflexivity.
    specialize (H3 eq_refl). lia.
  - apply state_eqb_eq in Hc. subst cr. rewrite pause_status.
    now destruct (status (state h)).
  - apply state_eqb_eq in Hc. subst cr. unfold toggle.
    destruct (status (state h)) eqn:Es.
    + rewrite start_status, Es. cbn.
      now destruct (remainingMs (state h) <=? 0).
    + rewrite pause_status, Es. reflexivity.
    + rewrite start_status, Es. cbn.
      now destruct (remainingMs (state h) <=? 0).
    + now rewrite (proj1 (reset_result h)).
  - rewrite (proj1 (reset_result h)). cbn.
    now destruct (status (state h)).
  - rewrite (proj1 (setDuration_result ms h)). cbn.
    now destruct (status (state h)).
  - destruct (isLive id h) eqn:Hl.
    + assert (Hrun : status (state h) = running).
      { destruct (status_eqb (status (state h)) running) eqn:E.
        - now destruct (status (state h)).
        - unfold isLive in Hl.
          rewrite (idle_has_no_live_interval h HT) in Hl.
          + discriminate.
          + intros E'. rewrite E' in E. discriminate. }
      destruct (tick_outcomes id reruns now h Hl) as [[_ E] | [_ E]];
        rewrite E, Hrun; reflexivity.
    + rewrite tick_dead by exact Hl. now destruct (status (state h)).
Qed.

Lemma status_edges_while_current_witness :
  transition running
    (status (state (step (40, OpPause (mkTimerState 984 running 1000))
                         (run begun (useTimer (Some 1000)))))) = true.
Proof.
  apply (status_edges_while_current (Some 1000) begun
           (40, OpPause (mkTimerState 984 running 1000))).
  - reflexivity.
  - reflexivity.
Defined.

(** X12: after an effective [start], the [pause] of the same render, which
    still reads the status the timer had before, does nothing; the [pause]
    of the next render gives back the [remainingMs] and [initialMs] the
    timer had, with status [paused], [intervalRef] cleared and no call of
    [onComplete]. *)
Theorem pause_needs_a_render_after_start (c : TimerState) (now : Z) (h : Hook) :
  status c <> running ->
  0 < remainingMs c ->
  let h1 := start c now h in
  status (state h1) = running /\
  pause c h1 = h1 /\
  state (pause (state h1) h1) =
    mkTimerState (remainingMs (state h)) paused (initialMs (state h)) /\
  intervalRef (pause (state h1) h1) = None /\
  completions (pause (state h1) h1) = completions h.
Proof.
  intros Hs Hr h1.
  assert (E : h1 =
    mkHook (mkTimerState (remainingMs (state h)) running (initialMs (state h)))
           (Some (intervals h)) now (remainingMs c)
           (live h ++ [intervals h]) (S (intervals h)) (completions h)).
  { subst h1. unfold start.
    destruct (status c); try congruence; cbn;
      (destruct (Z.leb_spec (remainingMs c) 0); [lia | reflexivity]). }
  rewrite E. cbn [state status].
  split; [reflexivity|]. split.
  { unfold pause. destruct (status c); try congruence; reflexivity. }
  unfold pause. cbn [state status status_eqb negb].
  rewrite stopInterval_eq. cbn. auto.
Qed.

Lemma pause_needs_a_render_after_start_witness :
  pause oneSecond (start oneSecond 0 (useTimer (Some 1000))) =
    start oneSecond 0 (useTimer (Some 1000)) /\
  state (pause (mkTimerState 1000 running 1000)
               (start oneSecond 0 (useTimer (Some 1000)))) =
    mkTimerState 1000 paused 1000.
Proof.
  destruct (pause_needs_a_render_after_start oneSecond 0 (useTimer (Some 1000)))
    as (_ & H2 & H3 & _).
  - discriminate.
  - reflexivity.
  - split; [exact H2 | exact H3].
Defined.

(** *** [reset] and [setDuration] *)

Lemma run_keeps_initialMs tr : forall h,
  keepsDuration tr = true ->
  initialMs (state (run tr h)) = initialMs (state h).
Proof.
  induction tr as [|[now op] tr IH]; intros h Hk; cbn in *.
  - reflexivity.
  - apply andb_prop in Hk as [Hop Hk]. rewrite (IH _ Hk).
    destruct op; cbn [step]; try discriminate.
    + apply start_keeps_initialMs.
    + apply pause_keeps_initialMs.
    + apply toggle_keeps_initialMs.
    + now rewrite (proj1 (reset_result h)).
    + apply tick_keeps_initialMs.
Qed.

(** X13: [reset] undoes what has happened to the state since the duration
    was last set: after any history without [setDuration], whichever
    renders its calls were made through and from any state of the hook, it
    leaves the state it would have left at once and clears [intervalRef].
    Of the live intervals it clears the one whose handle [intervalRef]
    held, and no other. *)
Theorem reset_forgets_any_history (tr : list Event) (h : Hook) :
  keepsDuration tr = true ->
  state (reset (run tr h)) =
    mkTimerState (initialMs (state h)) idle (initialMs (state h)) /\
  state (reset (run tr h)) = state (reset h) /\
  intervalRef (reset (run tr h)) = None /\
  live (reset (run tr h)) =
    match intervalRef (run tr h) with
    | Some id => filter (fun k => negb (k =? id)%nat) (live (run tr h))
    | None => live (run tr h)
    end.
Proof.
  intros Hk. pose proof (run_keeps_initialMs tr h Hk) as E.
  destruct (reset_result (run tr h)) as [R1 R2].
  destruct (reset_result h) as [R3 _].
  rewrite R1, R3, E. repeat split; auto.
  unfold reset. rewrite stopInterval_eq. reflexivity.
Qed.

Lemma reset_forgets_any_history_witness :
  state (reset (run [(0, OpStart oneSecond); (16, OpTick 0 0);
                     (40, OpStart oneSecond)]
                    (useTimer (Some 1000)))) =
  mkTimerState 1000 idle 1000.
Proof.
  apply (reset_forgets_any_history
           [(0, OpStart oneSecond); (16, OpTick 0 0); (40, OpStart oneSecond)]
           (useTimer (Some 1000))).
  reflexivity.
Defined.

Lemma step_keeps_positive e h :
  0 < initialMs (state h) -> 0 < initialMs (state (step e h)).
Proof.
  destruct e as [now op]. intros H. destruct op; cbn [step].
  - now rewrite start_keeps_initialMs.
  - now rewrite pause_keeps_initialMs.
  - now rewrite toggle_keeps_initialMs.
  - now rewrite (proj1 (reset_result h)).
  - rewrite (proj1 (setDuration_result ms h)). cbn. unfold MIN_DURATION_MS. lia.
  - now rewrite tick_keeps_initialMs.
Qed.

Lemma run_keeps_positive tr : forall h,
  0 < initialMs (state h) -> 0 < initialMs (state (run tr h)).
Proof.
  induction tr as [|e tr IH]; intros h H; cbn.
  - exact H.
  - apply IH. now apply step_keeps_positive.
Qed.

(** X14: once [setDuration] has been called, the invariant of the data
    model holds for the rest of the history, whatever duration the hook was
    created with, as long as the clock never runs backwards and [start],
    [pause] and [toggle] are called through the current render. *)
Theorem setDuration_restores_invariant_while_current
    (d : option Z) (t0 t : Z) (before after : list Event) (ms : Z) :
  chronological t0 (before ++ (t, OpSetDuration ms) :: after) = true ->
  currentRenders (before ++ (t, OpSetDuration ms) :: after) (useTimer d) = true ->
  Invariant
    (state (run (before ++ (t, OpSetDuration ms) :: after) (useTimer d))).
Proof.
  intros Hc Hf.
  pose proof (run_Steady _ t0 _ Hc Hf (useTimer_Steady d t0))
    as (_ & H1 & H2 & H3 & _).
  assert (Hp : 0 < initialMs
                     (state (run (before ++ (t, OpSetDuration ms) :: after)
                                 (useTimer d)))).
  { unfold run. rewrite fold_left_app. cbn [fold_left].
    apply run_keeps_positive. cbn [step].
    rewrite (proj1 (setDuration_result ms _)).
    cbn. unfold MIN_DURATION_MS. lia. }
  unfold Invariant. repeat split; auto.
Qed.

Lemma setDuration_restores_invariant_while_current_witness :
  Invariant
    (state (run ([(0, OpStart (mkTimerState (-5000) idle (-5000)))]
                   ++ (10, OpSetDuration 0)
                   :: [(20, OpStart oneSecond); (36, OpTick 0 0)])
                (useTimer (Some (-5000))))).
Proof.
  apply (setDuration_restores_invariant_while_current (Some (-5000)) 0 10
           [(0, OpStart (mkTimerState (-5000) idle (-5000)))]
           [(20, OpStart oneSecond); (36, OpTick 0 0)] 0).
  - reflexivity.
  - reflexivity.
Defined.

(** *** [Timer] is [Renders] called through the current render *)

Lemma erase_useTimer d : erase (useTimer d) = Timer.useTimer d.
Proof. reflexivity. Qed.

Lemma lift_step now op h :
  Tidy h ->
  erase (step (now, liftOp op h) h) = Timer.step (now, op) (erase h) /\
  current (liftOp op h) h = true.
Proof.
  intros (H0 & _). unfold oneHandle in H0.
  destruct op; cbn [liftOp step Timer.step current];
    rewrite ?state_eqb_refl; (split; [|reflexivity]).
  - unfold start, Timer.start, erase. cbn.
    destruct (status_eqb (status (state h)) running); [reflexivity|].
    destruct (remainingMs (state h) <=? 0); reflexivity.
  - unfold pause, Timer.pause, erase. cbn.
    destruct (status_eqb (status (state h)) running); cbn; [|reflexivity].
    rewrite stopInterval_eq. unfold Timer.stopInterval, Timer.setState. cbn.
    destruct (intervalRef h); reflexivity.
  - unfold toggle, Timer.toggle, erase. cbn.
    destruct (status (state h)) eqn:Es.
    + unfold start, Timer.start. cbn. rewrite Es. cbn.
      destruct (remainingMs (state h) <=? 0); reflexivity.
    + unfold pause, Timer.pause. cbn. rewrite Es. cbn.
      rewrite stopInterval_eq. unfold Timer.stopInterval, Timer.setState. cbn.
      destruct (intervalRef h); reflexivity.
    + unfold start, Timer.start. cbn. rewrite Es. cbn.
      destruct (remainingMs (state h) <=? 0); reflexivity.
    + unfold reset, Timer.reset. rewrite stopInterval_eq.
      unfold Timer.stopInterval, Timer.setState. cbn.
      destruct (intervalRef h); reflexivity.
  - unfold reset, Timer.reset, erase. rewrite stopInterval_eq.
    unfold Timer.stopInterval, Timer.setState. cbn.
    destruct (intervalRef h); reflexivity.
  - unfold setDuration, Timer.setDuration, erase. rewrite stopInterval_eq.
    unfold Timer.stopInterval, Timer.setState. cbn.
    destruct (intervalRef h); reflexivity.
  - unfold Timer.tick, Timer.armed, erase. cbn [Timer.intervalRef].
    destruct (intervalRef h) as [k|] eqn:Er.
    + assert (Hl : isLive k h = true).
      { unfold isLive. rewrite H0. cbn. now rewrite Nat.eqb_refl. }
      destruct (tick_outcomes k 0 now h Hl) as [[Hn E] | [Hn E]];
        rewrite E; unfold Timer.intervalCallback; cbn.
      * destruct (Z.leb_spec
                    (Z.max 0 (remainingAtStartRef h - (now - startTimeRef h))) 0);
          [lia|]. now rewrite Er.
      * destruct (Z.leb_spec
                    (Z.max 0 (remainingAtStartRef h - (now - startTimeRef h))) 0);
          [|lia].
        unfold Timer.stopInterval, Timer.onComplete, Timer.setState. cbn.
        rewrite Nat.add_1_r. reflexivity.
    + rewrite tick_dead; [now rewrite Er|]. unfold isLive. now rewrite H0.
Qed.

(** Every history of [Timer] is a history of [Renders] whose calls are all
    made through the current render, whose ticks are those of the handle in
    [intervalRef] and whose updates run once; it has the same clock
    readings and leaves the same state, refs and counts. *)
Lemma lift_run tr : forall h,
  Tidy h ->
  erase (run (lift tr h) h) = Timer.run tr (erase h) /\
  currentRenders (lift tr h) h = true /\
  chronological 0 (lift tr h) = Timer.chronological 0 tr.
Proof.
  assert (C : forall tr h t0,
             chronological t0 (lift tr h) = Timer.chronological t0 tr).
  { induction tr0 as [|[now op] tr0 IH]; intros h t0; cbn; [reflexivity|].
    now rewrite IH. }
  induction tr as [|[now op] tr IH]; intros h HT.
  - cbn. auto.
  - destruct (lift_step now op h HT) as [E Hc].
    assert (HT' : Tidy (step (now, liftOp op h) h))
      by (apply step_Tidy; assumption).
    destruct (IH _ HT') as (I1 & I2 & _).
    cbn [lift run fold_left currentRenders snd Timer.run].
    change (fold_left (fun h e => step e h) ?l ?x) with (run l x).
    change (fold_left (fun h e => Timer.step e h) ?l ?x) with (Timer.run l x).
    rewrite I1, E, Hc, I2. split; [reflexivity|]. split; [reflexivity|].
    apply (C ((now, op) :: tr) h 0).
Qed.

End RendersFacts.

(** ** The page, render by render *)

Module PageFacts.

Import Timer Clicks Renders Page RendersFacts.

Lemma run_append tr1 : forall t0 tr2 w,
  run t0 (tr1 ++ tr2) w =
  match run t0 tr1 w with
  | Some w' => run (fold_left (fun _ e => fst e) tr1 t0) tr2 w'
  | None => None
  end.
Proof.
  induction tr1 as [|[now i] tr1 IH]; intros t0 tr2 w; cbn.
  - reflexivity.
  - destruct (t0 <=? now); [|reflexivity].
    destruct (step now i w); [apply IH | reflexivity].
Qed.

Lemma after_countedDown :
  run 0 countedDown (mounted None) = Some (finishedWith 1).
Proof. vm_compute. reflexivity. Qed.

(** Once the countdown is over, the callback of the first interval still
    runs, computes 0 and calls [onComplete]. *)
Lemma leaked_tick now c :
  1500999 <= now ->
  step now (Tick 0 0) (finishedWith c) = Some (finishedWith (S c)).
Proof.
  intros H. unfold step, finishedWith. cbn [surface closures hook].
  f_equal. f_equal.
  assert (Hl : isLive 0
    (mkHook (mkTimerState 0 completed 1500000) None 999 1500000 [0%nat] 2 c) = true)
    by reflexivity.
  destruct (tick_outcomes 0 0 now _ Hl) as [[Hn E] | [Hn E]].
  - cbn [remainingAtStartRef startTimeRef] in Hn. lia.
  - rewrite E. rewrite stopInterval_eq.
    cbn [state intervalRef startTimeRef remainingAtStartRef live intervals
         completions initialMs].
    f_equal. lia.
Qed.

Lemma leaked_ticks n : forall k t0 c,
  t0 <= 1500999 + 16 * Z.of_nat k ->
  1500999 <= t0 ->
  run t0 (map (fun k => (1500999 + 16 * Z.of_nat (S k), Tick 0 0)) (seq k n))
      (finishedWith c) = Some (finishedWith (c + n)).
Proof.
  induction n as [|n IH]; intros k t0 c H1 H2.
  - cbn. now rewrite Nat.add_0_r.
  - cbn [seq map run].
    destruct (Z.leb_spec t0 (1500999 + 16 * Z.of_nat (S k))); [|lia].
    rewrite leaked_tick by lia.
    rewrite IH by lia. f_equal. f_equal. lia.
Qed.

(** C7, on the code.  After the clicks at 0, 499 and 600 the timer is
    running on the baseline (500, 1500000) with the interval 0.  The
    timeout of the second click then calls the [toggle] of the render of
    that click, in which the status was [idle]: its [start] passes both
    guards although the timer is running, moves the baseline to
    (999, 1500000), and sets a second interval next to the first.  The next
    tick raises [remainingMs] from 1499520 to 1499984.  Two calls of the
    [start] of one render do the same: the second moves the baseline from 0
    to 300. *)
Theorem start_of_an_earlier_render :
  hookAfter twoClicksAndOne (mounted None) =
    Some (mkHook (mkTimerState 1499520 running 1500000) (Some 0%nat)
                 500 1500000 [0%nat] 1 0) /\
  hookAfter secondTimeout (mounted None) =
    Some (mkHook (mkTimerState 1499520 running 1500000) (Some 1%nat)
                 999 1500000 [0%nat; 1%nat] 2 0) /\
  option_map state (hookAfter afterSecondTimeout (mounted None)) =
    Some (mkTimerState 1499984 running 1500000) /\
  Renders.run startedTwice (useTimer None) =
    mkHook (mkTimerState 1500000 running 1500000) (Some 1%nat)
           300 1500000 [0%nat; 1%nat] 2 0.
Proof. repeat split; vm_compute; reflexivity. Qed.

(** C3, on the code.  After the clicks at 0, 499 and 600 of
    [afterSecondTimeout], which leave two intervals live, the countdown
    ends at 1500999: the status is [completed], [remainingMs] is 0 and
    [onComplete] has been called once, but [stopInterval] has cleared the
    handle in [intervalRef] only, and the first interval is still live.  Each of its later ticks computes 0 and calls [onComplete]
    again: after [n] of them it has been called [n + 1] times for the one
    countdown.  Besides, [stopInterval] and [onComplete] are called inside
    the function given to [setState]: a completing tick whose function
    React runs twice calls [onComplete] twice. *)
Theorem completion_with_a_leaked_interval :
  hookAfter countedDown (mounted None) =
    Some (mkHook (mkTimerState 0 completed 1500000) None 999 1500000
                 [0%nat] 2 1) /\
  (forall n,
     hookAfter (countedDown ++ leakedTicks n) (mounted None) =
       Some (mkHook (mkTimerState 0 completed 1500000) None 999 1500000
                    [0%nat] 2 (S n))) /\
  completions (Renders.run [(0, OpStart oneSecond); (1000, OpTick 0 1)]
                 (useTimer (Some 1000))) = 2%nat.
Proof.
  split; [|split].
  - unfold hookAfter. now rewrite after_countedDown.
  - intros n. unfold hookAfter. rewrite run_append, after_countedDown.
    unfold leakedTicks. rewrite (leaked_ticks n 0); [reflexivity | | ].
    + vm_compute. discriminate.
    + vm_compute. discriminate.
  - reflexivity.
Qed.

(** C4, on the code.  [setDuration] leaves the state
    [remainingMs = initialMs = max 1000 ms] with status [idle] and an empty
    [intervalRef], for every [ms] and every hook.  It stops the interval
    whose handle [intervalRef] held, and no other: called with 5000 after
    the clicks at 0, 499 and 600 of [afterSecondTimeout], which leave two
    intervals live, it leaves the first interval live, and the next tick of that interval puts [remainingMs]
    back on the old countdown, above [initialMs], the status staying
    [idle]. *)
Theorem setDuration_with_a_leaked_interval :
  (forall ms h,
     state (setDuration ms h) =
       mkTimerState (Z.max 1000 ms) idle (Z.max 1000 ms) /\
     intervalRef (setDuration ms h) = None) /\
  option_map (fun h => live (setDuration 5000 h))
             (hookAfter afterSecondTimeout (mounted None)) = Some [0%nat] /\
  option_map (fun h => state (tick 0 0 2016 (setDuration 5000 h)))
             (hookAfter afterSecondTimeout (mounted None)) =
    Some (mkTimerState 1498983 idle 5000).
Proof.
  split; [|split].
  - intros ms h. apply setDuration_result.
  - vm_compute. reflexivity.
  - vm_compute. reflexivity.
Qed.

(** C5, on the code.  A click at 1500300 finds the timer running; the
    countdown ends at 1500500 and the status is [completed].  The timeout
    of the click then calls the [toggle] of the render of the click, which
    dispatches on the status of that render, [running]: it pauses, and the
    completed timer is left [paused] with [remainingMs = 0].  The [toggle]
    of the next click reads [paused] and calls [start], which returns at
    its second guard. *)
Theorem toggle_of_an_earlier_render :
  hookAfter lateClick (mounted None) =
    Some (mkHook (mkTimerState 0 completed 1500000) None 500 1500000 [] 1 1) /\
  hookAfter lateToggle (mounted None) =
    Some (mkHook (mkTimerState 0 paused 1500000) None 500 1500000 [] 1 1) /\
  hookAfter nextToggle (mounted None) =
    Some (mkHook (mkTimerState 0 paused 1500000) None 500 1500000 [] 1 1) /\
  option_map (fun w => calls (surface w)) (run 0 nextToggle (mounted None)) =
    Some [(500, OnToggle); (1500800, OnToggle); (1502500, OnToggle)].
Proof. repeat split; vm_compute; reflexivity. Qed.

End PageFacts.
